(** * Survey index calculator: SCI, UEI and SEI

    A shallow embedding of [index_calculator.py] (class [IndexCalculator])
    and of the [/calculate] endpoint of [api.py].

    Numbers.  Python floats (and the JSON integers mixed with them) are
    idealised as real numbers: [math.sqrt] is [sqrt], [math.atan2] is
    [atan2] below, [np.mean] and [np.std] are written out.  Rounding error,
    infinities and NaN are outside the model.

    Records.  A JSON object read with [dict.get(key, default)] is a record
    whose fields are options: [None] is an absent key.  The mapping
    [hoverCounts], whose keys are not fixed, is a [gmap string R].

    State.  The only mutable state is [self.history]; it is threaded
    explicitly: an operation that may append takes the history and returns
    the new one. *)

From Stdlib Require Import Reals Lra Lia ZArith.
From stdpp Require Import gmap strings list fin_maps.

Open Scope R_scope.

(* ===================================================================== *)
(** ** Numeric helpers standing for Python and numpy built-ins *)
(* ===================================================================== *)

(** [sum(values)] *)
Definition Rsum (l : list R) : R := foldr Rplus 0 l.

(** [np.mean(values)] on a non-empty list; numpy divides the sum by the
    length. *)
Definition mean (l : list R) : R := Rsum l / INR (length l).

(** [np.std(values, ddof=k)]: square root of the sum of squared distances
    to the mean over [len - ddof]. *)
Definition std (ddof : nat) (l : list R) : R :=
  sqrt (Rsum (map (fun v => (v - mean l) * (v - mean l)) l)
        / (INR (length l) - INR ddof)).

(** [math.atan2(dy, dx)], the angle of the vector [(dx, dy)] in
    [(-pi, pi]]. *)
Definition atan2 (dy dx : R) : R :=
  if Rlt_dec 0 dx then atan (dy / dx)
  else if Rlt_dec dx 0 then
    (if Rle_dec 0 dy then atan (dy / dx) + PI else atan (dy / dx) - PI)
  else if Rlt_dec 0 dy then PI / 2
  else if Rlt_dec dy 0 then - (PI / 2)
  else 0.

(** [round(v)] to the nearest integer, ties to the even one. *)
Definition round_half_even (v : R) : Z :=
  let f := Int_part v in
  let r := v - IZR f in
  if Rlt_dec r (1 / 2) then f
  else if Rlt_dec (1 / 2) r then (f + 1)%Z
  else if Z.even f then f else (f + 1)%Z.

(** [round(v, 2)] *)
Definition round2 (v : R) : R := IZR (round_half_even (v * 100)) / 100.

(** [[f(l[i-1], l[i]) for i in range(1, len(l))]] *)
Fixpoint pairwise {A B : Type} (f : A -> A -> B) (l : list A) : list B :=
  match l with
  | a :: t =>
      match t with
      | b :: _ => f a b :: pairwise f t
      | [] => []
      end
  | [] => []
  end.

(** [sum(1 for v in l if p(v))] *)
Definition count_if {A : Type} (p : A -> bool) (l : list A) : nat :=
  length (List.filter p l).

Definition Rltb (a b : R) : bool := if Rlt_dec a b then true else false.

(* ===================================================================== *)
(** ** The telemetry record *)
(* ===================================================================== *)

(** A trajectory point; [step] and [normalizedTime] are never read. *)
Record Point := { x : R; y : R }.

Record Deviation := {
  maxDeviationPositive : option R;
  maxDeviationNegative : option R;
  aucPositive : option R;
  aucNegative : option R
}.

Record Velocity := {
  averageVelocityPxPerSec : option R;
  maximalVelocityPxPerSec : option R
}.

Record Complexity := {
  angleEntropy : option R;
  initiationTimeMs : option R
}.

Record Hover := {
  hoverCounts : option (gmap string R);
  totalHovers : option R
}.

Record Metrics := {
  deviation : option Deviation;
  velocity : option Velocity;
  complexity : option Complexity;
  hover : option Hover
}.

Record Metadata := {
  userId : option string;
  questionId : option string;
  timestamp : option string;
  selectedResponse : option string
}.

Record Data := {
  metadata : option Metadata;
  trajectory : option (list Point);
  metrics : option Metrics
}.

(** The empty objects [{}] that [dict.get(key, {})] falls back to. *)
Definition no_deviation : Deviation := Build_Deviation None None None None.
Definition no_velocity : Velocity := Build_Velocity None None.
Definition no_complexity : Complexity := Build_Complexity None None.
Definition no_hover : Hover := Build_Hover None None.
Definition no_metrics : Metrics := Build_Metrics None None None None.
Definition no_metadata : Metadata := Build_Metadata None None None None.

(* ===================================================================== *)
(** ** [calculate_trajectory_metrics] *)
(* ===================================================================== *)

Record TrajectoryMetrics := {
  xFlips : nat;
  yFlips : nat;
  averageDeviation : R;
  trajectoryLength : R;
  trajectorySmoothness : R
}.

(** The loop [for i in range(1, len(c) - 1)] counting the indices where
    [(c[i] - c[i-1]) * (c[i+1] - c[i]) < 0]. *)
Fixpoint flips (c : list R) : nat :=
  match c with
  | a :: t =>
      match t with
      | b :: d :: _ =>
          ((if Rlt_dec ((b - a) * (d - b)) 0 then 1 else 0) + flips t)%nat
      | _ => 0%nat
      end
  | [] => 0%nat
  end.

(** The points of index [1 .. len - 2]. *)
Definition interior {A : Type} (l : list A) : list A := removelast (tl l).

Definition segment_length (p q : Point) : R :=
  sqrt ((x q - x p) * (x q - x p) + (y q - y p) * (y q - y p)).

Definition heading (p q : Point) : R := atan2 (y q - y p) (x q - x p).

Definition calculate_trajectory_metrics (trajectory : list Point)
  : TrajectoryMetrics :=
  if (length trajectory <? 2)%nat then
    {| xFlips := 0; yFlips := 0; averageDeviation := 0;
       trajectoryLength := 0; trajectorySmoothness := 1 |}
  else
    let x_coords := map x trajectory in
    let y_coords := map y trajectory in
    let x_flips := flips x_coords in
    let y_flips := flips y_coords in
    let x_start := hd 0 x_coords in
    let y_start := hd 0 y_coords in
    let x_end := List.last x_coords 0 in
    let y_end := List.last y_coords 0 in
    let line_length :=
      sqrt ((x_end - x_start) * (x_end - x_start)
            + (y_end - y_start) * (y_end - y_start)) in
    let deviations :=
      if Rlt_dec 0 line_length then
        map (fun p =>
               Rabs ((y_end - y_start) * x p - (x_end - x_start) * y p
                     + x_end * y_start - y_end * x_start) / line_length)
            (interior trajectory)
      else [] in
    let avg_deviation :=
      match deviations with [] => 0 | _ => mean deviations end in
    let trajectory_length := Rsum (pairwise segment_length trajectory) in
    let angles := pairwise heading trajectory in
    let smoothness :=
      if (1 <? length angles)%nat then
        let angle_changes := pairwise (fun a b => Rabs (b - a)) angles in
        let angle_sd := std 0 angle_changes in
        Rmax 0 (1 - angle_sd / PI)
      else 1 in
    {| xFlips := x_flips; yFlips := y_flips;
       averageDeviation := avg_deviation;
       trajectoryLength := trajectory_length;
       trajectorySmoothness := smoothness |}.

(* ===================================================================== *)
(** ** [calculate_sci] *)
(* ===================================================================== *)

(** [sum(hover_counts.values())] *)
Definition sum_values (m : gmap string R) : R :=
  Rsum (map snd (map_to_list m)).

(** The block "Calculate hover non-selected ratio" of [calculate_sci].
    [if hover_counts:] holds for a mapping with at least one key. *)
Definition hover_ratio (data : Data) : R :=
  let metrics := default no_metrics (metrics data) in
  let metadata := default no_metadata (metadata data) in
  let hover := default no_hover (hover metrics) in
  let hover_counts := default ∅ (hoverCounts hover) in
  let selected_response := default EmptyString (selectedResponse metadata) in
  if decide (size hover_counts = 0%nat) then 0
  else
    let total_hovers := sum_values hover_counts in
    let selected_hovers := default 0 (hover_counts !! selected_response) in
    let non_selected_hovers := total_hovers - selected_hovers in
    if Rlt_dec 0 total_hovers then non_selected_hovers / total_hovers else 0.

Definition calculate_sci (data : Data) : R :=
  let metrics := default no_metrics (metrics data) in
  let trajectory := default [] (trajectory data) in
  let deviation := default no_deviation (deviation metrics) in
  let velocity := default no_velocity (velocity metrics) in
  let max_dev_pos := default 0 (maxDeviationPositive deviation) in
  let max_dev_neg := Rabs (default 0 (maxDeviationNegative deviation)) in
  let auc_pos := default 0 (aucPositive deviation) in
  let auc_neg := Rabs (default 0 (aucNegative deviation)) in
  let avg_velocity := default 0 (averageVelocityPxPerSec velocity) in
  let traj_metrics := calculate_trajectory_metrics trajectory in
  let x_flips := xFlips traj_metrics in
  let y_flips := yFlips traj_metrics in
  let avg_deviation := averageDeviation traj_metrics in
  let hover_ratio := hover_ratio data in
  let total_max_dev := max_dev_pos + max_dev_neg in
  let total_auc := auc_pos + auc_neg in
  let total_flips := (x_flips + y_flips)%nat in
  let norm_max_dev := Rmin (total_max_dev / 100) 1 in
  let norm_auc := Rmin (total_auc / 500) 1 in
  let norm_flips := Rmin (INR total_flips / 20) 1 in
  let norm_avg_dev := Rmin (avg_deviation / 50) 1 in
  let norm_velocity := 1 - Rmin (avg_velocity / 2000) 1 in
  let norm_hover := hover_ratio in
  let sci_raw :=
    0.25 * norm_flips + 0.20 * norm_max_dev + 0.20 * norm_auc
    + 0.15 * norm_avg_dev + 0.10 * norm_velocity + 0.10 * norm_hover in
  sci_raw * 100.

(* ===================================================================== *)
(** ** [calculate_uei] *)
(* ===================================================================== *)

(** [complexity.get('initiationTimeMs', 200)] *)
Definition initiation_time (data : Data) : R :=
  let metrics := default no_metrics (metrics data) in
  let complexity := default no_complexity (complexity metrics) in
  default 200 (initiationTimeMs complexity).

(** "Speed penalty for instant response (<100ms = suspicious)" *)
Definition speed_penalty (initiation_time : R) : R :=
  if Rlt_dec initiation_time 100 then 0.7 else 1.0.

(** [uei_raw]: the maximum of the two engagement scores.  The source's
    [smoothness if smoothness is not None else 0.5] is [smoothness]:
    [calculate_trajectory_metrics] always sets it. *)
Definition uei_raw (data : Data) : R :=
  let metrics := default no_metrics (metrics data) in
  let trajectory := default [] (trajectory data) in
  let deviation := default no_deviation (deviation metrics) in
  let velocity := default no_velocity (velocity metrics) in
  let complexity := default no_complexity (complexity metrics) in
  let max_dev_pos := default 0 (maxDeviationPositive deviation) in
  let max_dev_neg := Rabs (default 0 (maxDeviationNegative deviation)) in
  let auc_pos := default 0 (aucPositive deviation) in
  let auc_neg := Rabs (default 0 (aucNegative deviation)) in
  let avg_velocity := default 500 (averageVelocityPxPerSec velocity) in
  let max_velocity := default 1000 (maximalVelocityPxPerSec velocity) in
  let angle_entropy := default 1.0 (angleEntropy complexity) in
  let traj_metrics := calculate_trajectory_metrics trajectory in
  let trajectory_length := trajectoryLength traj_metrics in
  let smoothness := trajectorySmoothness traj_metrics in
  let total_max_dev := max_dev_pos + max_dev_neg in
  let total_auc := auc_pos + auc_neg in
  let directness := 1 - Rmin (total_max_dev / 100) 1 in
  let smoothness_norm := smoothness in
  let not_too_slow := Rmin (avg_velocity / 1000) 1 in
  let decisiveness := Rmin (max_velocity / 2000) 1 in
  let confident_engagement :=
    (directness + smoothness_norm + not_too_slow + decisiveness) / 4 in
  let norm_entropy := Rmin (angle_entropy / 3.0) 1 in
  let norm_auc := Rmin (total_auc / 500) 1 in
  let norm_length := Rmin (trajectory_length / 5.0) 1 in
  let exploration := (norm_entropy + norm_auc + norm_length) / 3 in
  let deliberation := 1 - Rmin (avg_velocity / 1000) 1 in
  let exploratory_engagement := exploration * 0.7 + deliberation * 0.3 in
  Rmax confident_engagement exploratory_engagement.

Definition calculate_uei (data : Data) : R :=
  let uei := uei_raw data * speed_penalty (initiation_time data) * 100 in
  Rmax 0 (Rmin 100 uei).

(* ===================================================================== *)
(** ** The history and [calculate_sei] *)
(* ===================================================================== *)

Record HistoryEntry := {
  h_sci : R;
  h_uei : R;
  h_userId : string;
  h_questionId : string;
  h_timestamp : string
}.

(** [self.history] *)
Definition History := list HistoryEntry.

Definition make_entry (sci uei : R) (metadata : Metadata) : HistoryEntry :=
  {| h_sci := sci; h_uei := uei;
     h_userId := default EmptyString (userId metadata);
     h_questionId := default EmptyString (questionId metadata);
     h_timestamp := default EmptyString (timestamp metadata) |}.

(** [self.history.append({...})] *)
Definition add_to_history (sci uei : R) (metadata : Metadata)
  (history : History) : History :=
  history ++ [make_entry sci uei metadata].

(** [if user_id:] on an [Optional[str]]: neither [None] nor [''] *)
Definition truthy (user_id : option string) : bool :=
  match user_id with
  | Some u => negb (String.eqb u EmptyString)
  | None => false
  end.

(** [[h for h in self.history if h['userId'] == user_id]] *)
Definition entries_of (user_id : string) (history : History) : History :=
  List.filter (fun h => String.eqb (h_userId h) user_id) history.

(** The body of [calculate_sei] below [if not history: return 50.0]: the
    weighted score of a non-empty list of entries. *)
Definition weighted_sei (history : History) : R :=
  let sci_values := map h_sci history in
  let uei_values := map h_uei history in
  let cumulative_mean_uei := mean uei_values in
  let cumulative_mean_sci := mean sci_values in
  let cumulative_cv_uei :=
    if (1 <? length uei_values)%nat then
      let cumulative_sd_uei := std 1 uei_values in
      if Rlt_dec 0 cumulative_mean_uei
      then cumulative_sd_uei / cumulative_mean_uei else 0
    else 0 in
  let consistency := 1 / (1 + cumulative_cv_uei) in
  let high_engagement_ratio :=
    INR (count_if (fun u => Rltb 60 u) uei_values)
    / INR (length uei_values) in
  let low_engagement_ratio :=
    INR (count_if (fun u => Rltb u 30) uei_values)
    / INR (length uei_values) in
  let balance :=
    INR (count_if (fun su => Rltb 50 (fst su) && Rltb 60 (snd su))
                  (combine sci_values uei_values))
    / INR (length uei_values) in
  let norm_uei := cumulative_mean_uei / 100 in
  let norm_sci := cumulative_mean_sci / 100 in
  let norm_consistency := consistency in
  let norm_high_ratio := high_engagement_ratio in
  let norm_low_penalty := 1 - low_engagement_ratio in
  let norm_balance := balance in
  let sei_raw :=
    0.40 * norm_uei + 0.20 * norm_sci + 0.15 * norm_consistency
    + 0.10 * norm_high_ratio + 0.10 * norm_balance
    + 0.05 * norm_low_penalty in
  sei_raw * 100.

(** The body of [calculate_sei] after the filter: the score of a list of
    entries. *)
Definition aggregate_sei (history : History) : R :=
  match history with
  | [] => 50.0
  | _ :: _ => weighted_sei history
  end.

Definition calculate_sei (user_id : option string) (history : History) : R :=
  let history :=
    if truthy user_id
    then entries_of (default EmptyString user_id) history
    else history in
  aggregate_sei history.

Definition get_history (user_id : option string) (history : History)
  : History :=
  if truthy user_id
  then entries_of (default EmptyString user_id) history
  else history.

Definition reset_history (history : History) : History := [].

(* ===================================================================== *)
(** ** [calculate_all] *)
(* ===================================================================== *)

Record Indices := { SCI : R; UEI : R; SEI : R }.

(** Returns the result dictionary and the history after the call. *)
Definition calculate_all (data : Data) (update_history : bool)
  (history : History) : Indices * History :=
  let sci := calculate_sci data in
  let uei := calculate_uei data in
  let history :=
    if update_history
    then add_to_history sci uei (default no_metadata (metadata data)) history
    else history in
  let user_id := userId (default no_metadata (metadata data)) in
  let sei := calculate_sei user_id history in
  ({| SCI := round2 sci; UEI := round2 uei; SEI := round2 sei |}, history).

(* ===================================================================== *)
(** ** The [/calculate] endpoint of [api.py] *)
(* ===================================================================== *)

Inductive Response :=
| Success (status : nat) (indices : Indices) (meta : option Metadata)
| Failure (status : nat) (message : string).

Definition required_fields : list string :=
  ["metadata"; "trajectory"; "metrics"]%string.

(** [f in data] for the three section names. *)
Definition has_field (data : Data) (f : string) : bool :=
  if String.eqb f "metadata" then bool_decide (is_Some (metadata data))
  else if String.eqb f "trajectory" then bool_decide (is_Some (trajectory data))
  else if String.eqb f "metrics" then bool_decide (is_Some (metrics data))
  else false.

(** [calculate()] on the request body.  [None] is a body for which
    [not data] holds (no JSON, [null], the empty object); [Some data] is a
    non-empty object.  The calculator is the module-level instance, so
    its history is passed in and returned.  In this model
    [calculate_all] raises nothing, and the [except] branch is not
    reached. *)
Definition calculate (body : option Data) (history : History)
  : Response * History :=
  match body with
  | None => (Failure 400 "No JSON data provided", history)
  | Some data =>
      let missing_fields :=
        List.filter (fun f => negb (has_field data f)) required_fields in
      match missing_fields with
      | _ :: _ =>
          (Failure 400
             ("Missing required fields: "
              ++ String.concat ", " missing_fields)%string,
           history)
      | [] =>
          let '(indices, history) := calculate_all data true history in
          (Success 200 indices (metadata data), history)
      end
  end.

(* ===================================================================== *)
(** ** Records that differ in one leaf field of the metrics bundle *)
(* ===================================================================== *)

(** The numeric leaf fields of [metrics]. *)
Inductive Leaf :=
| LMaxDeviationPositive | LMaxDeviationNegative
| LAucPositive | LAucNegative
| LAverageVelocityPxPerSec | LMaximalVelocityPxPerSec
| LAngleEntropy | LInitiationTimeMs
| LTotalHovers.

Definition get_leaf (l : Leaf) (data : Data) : option R :=
  let m := default no_metrics (metrics data) in
  let dv := default no_deviation (deviation m) in
  let ve := default no_velocity (velocity m) in
  let co := default no_complexity (complexity m) in
  let ho := default no_hover (hover m) in
  match l with
  | LMaxDeviationPositive => maxDeviationPositive dv
  | LMaxDeviationNegative => maxDeviationNegative dv
  | LAucPositive => aucPositive dv
  | LAucNegative => aucNegative dv
  | LAverageVelocityPxPerSec => averageVelocityPxPerSec ve
  | LMaximalVelocityPxPerSec => maximalVelocityPxPerSec ve
  | LAngleEntropy => angleEntropy co
  | LInitiationTimeMs => initiationTimeMs co
  | LTotalHovers => totalHovers ho
  end.

Definition set_metrics (m : Metrics) (data : Data) : Data :=
  {| metadata := metadata data; trajectory := trajectory data;
     metrics := Some m |}.

(** The same record with leaf [l] present and equal to [v]; every other
    key keeps its value, and the objects on the path to [l] are created
    when absent. *)
Definition set_leaf (l : Leaf) (v : R) (data : Data) : Data :=
  let m := default no_metrics (metrics data) in
  let dv := default no_deviation (deviation m) in
  let ve := default no_velocity (velocity m) in
  let co := default no_complexity (complexity m) in
  let ho := default no_hover (hover m) in
  let with_dv d :=
    set_metrics (Build_Metrics (Some d) (velocity m) (complexity m) (hover m))
                data in
  let with_ve d :=
    set_metrics (Build_Metrics (deviation m) (Some d) (complexity m) (hover m))
                data in
  let with_co d :=
    set_metrics (Build_Metrics (deviation m) (velocity m) (Some d) (hover m))
                data in
  let with_ho d :=
    set_metrics (Build_Metrics (deviation m) (velocity m) (complexity m)
                               (Some d))
                data in
  match l with
  | LMaxDeviationPositive =>
      with_dv (Build_Deviation (Some v) (maxDeviationNegative dv)
                               (aucPositive dv) (aucNegative dv))
  | LMaxDeviationNegative =>
      with_dv (Build_Deviation (maxDeviationPositive dv) (Some v)
                               (aucPositive dv) (aucNegative dv))
  | LAucPositive =>
      with_dv (Build_Deviation (maxDeviationPositive dv)
                               (maxDeviationNegative dv) (Some v)
                               (aucNegative dv))
  | LAucNegative =>
      with_dv (Build_Deviation (maxDeviationPositive dv)
                               (maxDeviationNegative dv) (aucPositive dv)
                               (Some v))
  | LAverageVelocityPxPerSec =>
      with_ve (Build_Velocity (Some v) (maximalVelocityPxPerSec ve))
  | LMaximalVelocityPxPerSec =>
      with_ve (Build_Velocity (averageVelocityPxPerSec ve) (Some v))
  | LAngleEntropy => with_co (Build_Complexity (Some v) (initiationTimeMs co))
  | LInitiationTimeMs => with_co (Build_Complexity (angleEntropy co) (Some v))
  | LTotalHovers => with_ho (Build_Hover (hoverCounts ho) (Some v))
  end.

Definition get_hoverCounts (data : Data) : option (gmap string R) :=
  hoverCounts (default no_hover (hover (default no_metrics (metrics data)))).

(** The same record with [hoverCounts] present and equal to [hc]. *)
Definition set_hoverCounts (hc : gmap string R) (data : Data) : Data :=
  let m := default no_metrics (metrics data) in
  let ho := default no_hover (hover m) in
  set_metrics (Build_Metrics (deviation m) (velocity m) (complexity m)
                             (Some (Build_Hover (Some hc) (totalHovers ho))))
              data.

(** The fallback that [calculate_uei] passes to [dict.get] for each leaf
    it reads ([LTotalHovers] is read nowhere; any value does). *)
Definition uei_default (l : Leaf) : R :=
  match l with
  | LAverageVelocityPxPerSec => 500
  | LMaximalVelocityPxPerSec => 1000
  | LAngleEntropy => 1.0
  | LInitiationTimeMs => 200
  | _ => 0
  end.

(** The record has the three top-level sections. *)
Definition has_sections (data : Data) : Prop :=
  is_Some (metadata data) /\ is_Some (trajectory data)
  /\ is_Some (metrics data).

(** The hover ratio as the specification words it: from the record's
    [totalHovers] value, 0 when that is 0 or [hoverCounts] is absent. *)
Definition hover_ratio_spec (data : Data) : R :=
  let m := default no_metrics (metrics data) in
  let ho := default no_hover (hover m) in
  let selected := default EmptyString
                    (selectedResponse (default no_metadata (metadata data))) in
  match hoverCounts ho with
  | None => 0
  | Some hc =>
      let total := default 0 (totalHovers ho) in
      if Req_dec_T total 0 then 0
      else (total - default 0 (hc !! selected)) / total
  end.

(** The record with each absent section replaced by the empty value that
    [data.get(section, default)] falls back to. *)
Definition with_default_sections (data : Data) : Data :=
  {| metadata := Some (default no_metadata (metadata data));
     trajectory := Some (default [] (trajectory data));
     metrics := Some (default no_metrics (metrics data)) |}.

(* ===================================================================== *)
(** ** Ranges *)
(* ===================================================================== *)

(** The inputs that the normalisations of [calculate_sci] take to be
    non-negative: the positive-side deviation and area, the average
    velocity and the hover counts. *)
Definition nonneg_inputs (data : Data) : Prop :=
  0 <= default 0 (get_leaf LMaxDeviationPositive data)
  /\ 0 <= default 0 (get_leaf LAucPositive data)
  /\ 0 <= default 0 (get_leaf LAverageVelocityPxPerSec data)
  /\ map_Forall (fun _ v => 0 <= v) (default ∅ (get_hoverCounts data)).

(** A history entry whose two scores lie in [[0, 100]]. *)
Definition entry_in_range (e : HistoryEntry) : Prop :=
  0 <= h_sci e <= 100 /\ 0 <= h_uei e <= 100.

(* ===================================================================== *)
(** ** Sample records *)
(* ===================================================================== *)

(** The three sections present and empty:
    [{"metadata": {}, "trajectory": [], "metrics": {}}]. *)
Definition bare_record : Data :=
  {| metadata := Some no_metadata; trajectory := Some [];
     metrics := Some no_metrics |}.

(** A non-empty object with none of the three sections. *)
Definition sectionless_record : Data :=
  {| metadata := None; trajectory := None; metrics := None |}.

(** [bare_record] with [metrics.deviation.maxDeviationPositive = -2000]. *)
Definition negative_deviation_record : Data :=
  set_leaf LMaxDeviationPositive (-2000) bare_record.

(** [{"A": 2, "B": 1}] *)
Definition counts_AB : gmap string R :=
  <["A"%string := 2]> {["B"%string := 1]}.

(** [hoverCounts = {"A": 2, "B": 1}], [selectedResponse = "A"] and the
    given [totalHovers]. *)
Definition hover_record (total : R) : Data :=
  {| metadata :=
       Some {| userId := Some "user_001"%string; questionId := None;
               timestamp := None; selectedResponse := Some "A"%string |};
     trajectory := Some [];
     metrics :=
       Some {| deviation := None; velocity := None; complexity := None;
               hover :=
                 Some {| hoverCounts := Some counts_AB;
                         totalHovers := Some total |} |} |}.

(** (0,0), (0.06,0.06), (0.12,0.04), (0.18,0.10) *)
Definition zigzag : list Point :=
  [ {| x := 0; y := 0 |}; {| x := 0.06; y := 0.06 |};
    {| x := 0.12; y := 0.04 |}; {| x := 0.18; y := 0.10 |} ].

Definition entry_of_A : HistoryEntry :=
  {| h_sci := 0; h_uei := 0; h_userId := "user_A";
     h_questionId := "q1"; h_timestamp := EmptyString |}.

(** An earlier entry of the anonymous user, and the entry that
    [bare_record] appends (SCI 10, UEI 75). *)
Definition entry_prior : HistoryEntry :=
  {| h_sci := 90; h_uei := 75; h_userId := EmptyString;
     h_questionId := "q0"; h_timestamp := EmptyString |}.

Definition entry_bare : HistoryEntry :=
  {| h_sci := 10; h_uei := 75; h_userId := EmptyString;
     h_questionId := EmptyString; h_timestamp := EmptyString |}.

Definition entry_of_B : HistoryEntry :=
  {| h_sci := 40; h_uei := 70; h_userId := "user_B";
     h_questionId := "q1"; h_timestamp := EmptyString |}.

(* ===================================================================== *)
(** ** [normalize_0_1] *)
(* ===================================================================== *)

(** [min(values)] and [max(values)] of a non-empty list given as head and
    tail: the running minimum (maximum) from left to right. *)
Definition running_min (v : R) (t : list R) : R := fold_left Rmin t v.
Definition running_max (v : R) (t : list R) : R := fold_left Rmax t v.

Definition normalize_0_1 (values : list R) : list R :=
  match values with
  | [] => []
  | v :: t =>
      let min_val := running_min v t in
      let max_val := running_max v t in
      if Req_dec_T max_val min_val then repeat 0.5 (length values)
      else map (fun v => (v - min_val) / (max_val - min_val)) values
  end.

(* ===================================================================== *)
(** ** The other endpoints of [api.py] *)
(* ===================================================================== *)

(** One element of the [results] list of [calculate_batch]:
    [{**indices, 'metadata': question_data.get('metadata', {})}]. *)
Record BatchResult := { indices_of : Indices; metadata_of : Metadata }.

(** The loop [for i, question_data in enumerate(questions)] on the shared
    calculator.  In this model [calculate_all] raises nothing, so the
    [except] branch that would append an error item is not reached. *)
Fixpoint batch_loop (questions : list Data) (history : History)
  : list BatchResult * History :=
  match questions with
  | [] => ([], history)
  | question_data :: rest =>
      let '(indices, history) := calculate_all question_data true history in
      let '(results, history) := batch_loop rest history in
      ({| indices_of := indices;
          metadata_of := default no_metadata (metadata question_data) |}
         :: results,
       history)
  end.

Inductive BatchResponse :=
| BatchSuccess (status : nat) (results : list BatchResult)
| BatchFailure (status : nat) (message : string).

(** [calculate_batch()] on the request body.  [None] is a body for which
    [not data or 'questions' not in data] holds; [Some questions] is a
    body whose [questions] is the given array. *)
Definition calculate_batch (body : option (list Data)) (history : History)
  : BatchResponse * History :=
  match body with
  | None => (BatchFailure 400 "No questions array provided", history)
  | Some questions =>
      let '(results, history) := batch_loop questions history in
      (BatchSuccess 200 results, history)
  end.

(** [reset()]: the endpoint empties the history and answers 200. *)
Definition reset (history : History) : nat * History :=
  (200%nat, reset_history history).

Record Stats := { total_calculations : nat; unique_users : nat }.

(** [get_stats()]: the length of the whole history and the number of
    distinct [userId] values in it. *)
Definition get_stats (history : History) : Stats :=
  let history := get_history None history in
  let unique_users :=
    size (list_to_set (map h_userId history) : gset string) in
  {| total_calculations := length history; unique_users := unique_users |}.

(* ===================================================================== *)
(** ** Shapes of trajectories and histories used in the statements *)
(* ===================================================================== *)

(** Consecutive values never decrease. *)
Fixpoint nondecreasing (c : list R) : Prop :=
  match c with
  | a :: t =>
      match t with
      | b :: _ => a <= b /\ nondecreasing t
      | [] => True
      end
  | [] => True
  end.

(** The history entry that scoring [data] appends. *)
Definition entry_for (data : Data) : HistoryEntry :=
  make_entry (calculate_sci data) (calculate_uei data)
             (default no_metadata (metadata data)).

(** The same record sent under another identity: [userId], [questionId]
    and [timestamp] replaced, [selectedResponse] and the telemetry kept. *)
Definition with_identity (user question time : option string) (data : Data)
  : Data :=
  {| metadata :=
       Some {| userId := user; questionId := question; timestamp := time;
               selectedResponse :=
                 selectedResponse (default no_metadata (metadata data)) |};
     trajectory := trajectory data;
     metrics := metrics data |}.

(** The record's [userId] as stored in its history entry. *)
Definition user_of (data : Data) : string :=
  default EmptyString (userId (default no_metadata (metadata data))).

(* ===================================================================== *)
(** ** Tactics and basic facts *)
(* ===================================================================== *)

(** Case analysis on the comparisons hidden in [Rmin], [Rmax], [Rabs] and
    the decision procedures, innermost first, dropping the cases that
    linear arithmetic refutes. *)
Ltac no_test t :=
  lazymatch t with
  | context [Rle_dec _ _] => fail
  | context [Rlt_dec _ _] => fail
  | context [Rcase_abs _] => fail
  | _ => idtac
  end.

Ltac split_real :=
  unfold Rmin, Rmax, Rabs;
  repeat match goal with
    | |- context [Rle_dec ?a ?b] =>
        no_test a; no_test b; destruct (Rle_dec a b); try (exfalso; lra)
    | |- context [Rlt_dec ?a ?b] =>
        no_test a; no_test b; destruct (Rlt_dec a b); try (exfalso; lra)
    | |- context [Rcase_abs ?a] =>
        no_test a; destruct (Rcase_abs a); try (exfalso; lra)
    end;
  try lra.

(** Expose every optional object of a record down to its leaves. *)
Ltac destruct_data d :=
  let md := fresh "md" in
  let tr := fresh "tr" in
  let m := fresh "m" in
  destruct d as [md tr m];
  destruct m as [[[[? ? ? ?]|] [[? ?]|] [[? ?]|] [[? ?]|]]|].

Lemma truthy_spec (user_id : option string) :
  truthy user_id = true <->
  exists u, user_id = Some u /\ u <> EmptyString.
Proof.
  destruct user_id as [u|]; simpl.
  - destruct (String.eqb_spec u EmptyString) as [->|Hne]; simpl; split.
    + discriminate.
    + intros (u & [= <-] & Hu). contradiction.
    + intros _. exists u. split; [reflexivity | assumption].
    + reflexivity.
  - split; [discriminate | intros (u & [=] & _)].
Qed.

Lemma truthy_nonempty (u : string) :
  u <> EmptyString -> truthy (Some u) = true.
Proof. intros Hu. apply truthy_spec. exists u. split; [reflexivity | exact Hu]. Qed.

(** [calculate_sei] is [aggregate_sei] after the selection that
    [get_history] performs. *)
Lemma calculate_sei_get_history (user_id : option string) (history : History) :
  calculate_sei user_id history = aggregate_sei (get_history user_id history).
Proof. reflexivity. Qed.

Lemma entries_of_app (u : string) (h1 h2 : History) :
  entries_of u (h1 ++ h2) = entries_of u h1 ++ entries_of u h2.
Proof. unfold entries_of. apply List.filter_app. Qed.

Lemma entries_of_all (u : string) (history : History) :
  Forall (fun e => h_userId e = u) history -> entries_of u history = history.
Proof.
  induction 1 as [|e h He _ IH]; [reflexivity|].
  unfold entries_of in *. simpl. rewrite He, String.eqb_refl, IH. reflexivity.
Qed.

(* ===================================================================== *)
(** ** Degenerate trajectories *)
(* ===================================================================== *)

(** C9. For a trajectory with fewer than two points (empty or a single
    point) [calculate_trajectory_metrics] returns [xFlips = 0],
    [yFlips = 0], [averageDeviation = 0.0], [trajectoryLength = 0.0] and
    [trajectorySmoothness = 1.0]. *)
Theorem short_trajectory_metrics (trajectory : list Point) :
  (length trajectory < 2)%nat ->
  calculate_trajectory_metrics trajectory
  = {| xFlips := 0; yFlips := 0; averageDeviation := 0;
       trajectoryLength := 0; trajectorySmoothness := 1 |}.
Proof.
  intros Hlen. unfold calculate_trajectory_metrics.
  destruct (Nat.ltb_spec (length trajectory) 2) as [_|Hge].
  - reflexivity.
  - lia.
Qed.

Lemma short_trajectory_metrics_witness :
  calculate_trajectory_metrics [] = Build_TrajectoryMetrics 0 0 0 0 1
  /\ calculate_trajectory_metrics [Build_Point 0.5 0.5]
     = Build_TrajectoryMetrics 0 0 0 0 1.
Proof.
  split.
  - apply (short_trajectory_metrics []). simpl. lia.
  - apply (short_trajectory_metrics [Build_Point 0.5 0.5]). simpl. lia.
Defined.

(** On a longer path the flips are counted: the sample path goes up,
    down and up again in [y] (two sign changes) and never turns in [x]. *)
Example zigzag_flips :
  xFlips (calculate_trajectory_metrics zigzag) = 0%nat
  /\ yFlips (calculate_trajectory_metrics zigzag) = 2%nat.
Proof.
  unfold calculate_trajectory_metrics, zigzag. simpl.
  split; split_real; reflexivity.
Qed.

(* ===================================================================== *)
(** ** The neutral score of an empty selection *)
(* ===================================================================== *)

(** C7. Whenever the history sequence that [calculate_sei] aggregates
    (the whole history, or the entries of [user_id] when it is a
    non-empty string) is empty, [calculate_sei] returns exactly 50.0. *)
Theorem sei_of_empty_selection (user_id : option string) (history : History) :
  get_history user_id history = [] ->
  calculate_sei user_id history = 50.
Proof.
  intros Hsel. rewrite calculate_sei_get_history, Hsel. simpl. lra.
Qed.

Lemma sei_of_empty_selection_witness :
  calculate_sei None [] = 50
  /\ calculate_sei (Some "user_A"%string) [entry_of_B] = 50.
Proof.
  split.
  - apply (sei_of_empty_selection None []). reflexivity.
  - apply (sei_of_empty_selection (Some "user_A"%string) [entry_of_B]).
    reflexivity.
Defined.

(* ===================================================================== *)
(** ** [calculate_all] and the history *)
(* ===================================================================== *)

Lemma calculate_all_history (data : Data) (update_history : bool)
  (history : History) :
  snd (calculate_all data update_history history)
  = if update_history
    then history ++ [make_entry (calculate_sci data) (calculate_uei data)
                                (default no_metadata (metadata data))]
    else history.
Proof. destruct update_history; reflexivity. Qed.

Lemma calculate_all_SEI (data : Data) (update_history : bool)
  (history : History) :
  SEI (fst (calculate_all data update_history history))
  = round2 (calculate_sei (userId (default no_metadata (metadata data)))
              (snd (calculate_all data update_history history))).
Proof. destruct update_history; reflexivity. Qed.

(** The entries that a record appends carry the record's [userId], so the
    selection made for that [userId] keeps them after whatever it keeps
    of the earlier history. *)
Lemma own_entries_kept (data : Data) (history : History) (n : nat) :
  let md := default no_metadata (metadata data) in
  let e := make_entry (calculate_sci data) (calculate_uei data) md in
  get_history (userId md) (history ++ repeat e n)
  = get_history (userId md) history ++ repeat e n.
Proof.
  intros md e. unfold get_history.
  destruct (truthy (userId md)) eqn:Ht; [|reflexivity].
  apply truthy_spec in Ht as (u & Hu & _). rewrite Hu. simpl.
  rewrite entries_of_app. f_equal.
  apply entries_of_all. apply List.Forall_forall. intros e' He'.
  apply repeat_spec in He'. subst e'. unfold e, make_entry. simpl.
  rewrite Hu. reflexivity.
Qed.

(** C5. Two calls of [calculate_all] with the same record and
    [update_history=True], starting from the empty history, leave exactly
    two entries in the history, and the SEI of the second call is the
    (rounded) aggregate over both entries: the append precedes the
    aggregation.  The same holds from any earlier history: each call
    appends its entry first, and the SEI it returns aggregates what the
    record's user had before together with every entry appended so far,
    the current one included. *)
Theorem second_call_is_cumulative (data : Data) (history : History) :
  let md := default no_metadata (metadata data) in
  let e := make_entry (calculate_sci data) (calculate_uei data) md in
  let first := calculate_all data true history in
  let second := calculate_all data true (snd first) in
  let first0 := calculate_all data true [] in
  let second0 := calculate_all data true (snd first0) in
  (snd first = history ++ [e]
   /\ snd second = history ++ [e; e]
   /\ length (snd second) = (length history + 2)%nat
   /\ SEI (fst first)
      = round2 (aggregate_sei (get_history (userId md) history ++ [e]))
   /\ SEI (fst second)
      = round2 (aggregate_sei (get_history (userId md) history ++ [e; e])))
  /\ (snd first0 = [e]
      /\ snd second0 = [e; e]
      /\ length (snd second0) = 2%nat
      /\ SEI (fst second0) = round2 (aggregate_sei [e; e])).
Proof.
  intros md e.
  assert (Hstep : forall h,
             snd (calculate_all data true h) = h ++ [e]
             /\ SEI (fst (calculate_all data true h))
                = round2 (aggregate_sei (get_history (userId md) h ++ [e]))).
  { intros h. split; [apply calculate_all_history|].
    rewrite calculate_all_SEI, calculate_all_history.
    rewrite calculate_sei_get_history. do 2 f_equal.
    exact (own_entries_kept data h 1). }
  assert (Htwice : forall h,
             snd (calculate_all data true (snd (calculate_all data true h)))
             = h ++ [e; e]
             /\ SEI (fst (calculate_all data true
                            (snd (calculate_all data true h))))
                = round2 (aggregate_sei
                            (get_history (userId md) h ++ [e; e]))).
  { intros h. destruct (Hstep h) as [Hh1 _]. rewrite Hh1.
    destruct (Hstep (h ++ [e])) as [Hh2 Hs2].
    rewrite Hh2, Hs2, <- app_assoc. split; [reflexivity|]. do 2 f_equal.
    pose proof (own_entries_kept data h 1) as Hkept. simpl in Hkept.
    fold md in Hkept. fold e in Hkept. rewrite Hkept, <- app_assoc.
    reflexivity. }
  intros first second first0 second0.
  destruct (Hstep history) as [Hh1 Hs1].
  destruct (Htwice history) as [Hh2 Hs2].
  destruct (Htwice []) as [Hz2 Hzs].
  split; [split; [exact Hh1 | split; [exact Hh2 | split; [|split]]]|].
  - unfold second, first. rewrite Hh2, length_app. reflexivity.
  - exact Hs1.
  - exact Hs2.
  - split; [reflexivity | split; [exact Hz2 | split]].
    + unfold second0, first0. rewrite Hz2. reflexivity.
    + unfold second0, first0. rewrite Hzs.
      assert (Hnil : get_history (userId md) [] = []).
      { unfold get_history. destruct (truthy _); reflexivity. }
      rewrite Hnil. reflexivity.
Qed.



Lemma history_after_reset (user_id : option string) (history : History) :
  get_history user_id (reset_history history) = [].
Proof. unfold get_history, reset_history. destruct (truthy user_id); reflexivity. Qed.

(* ===================================================================== *)
(** ** Per-user selection *)
(* ===================================================================== *)

Lemma sei_of_entry_of_A :
  calculate_sei (Some EmptyString) [entry_of_A] = 15.
Proof.
  unfold calculate_sei, aggregate_sei, weighted_sei, mean, count_if, Rltb.
  simpl. split_real; simpl; lra.
Qed.

(** C6, as stated, fails at the empty [userId]: the histories
    [[entry_of_A]] and [[]] have the same (empty) subsequence of entries
    whose [userId] is [''], yet [calculate_sei('')] is 15 on the first
    and 50 on the second, because [''] selects the whole history. *)
Lemma sei_empty_user_counterexample :
  entries_of EmptyString [entry_of_A] = entries_of EmptyString []
  /\ calculate_sei (Some EmptyString) [entry_of_A]
     <> calculate_sei (Some EmptyString) [].
Proof.
  split; [reflexivity|].
  rewrite sei_of_entry_of_A. unfold calculate_sei, aggregate_sei. simpl. lra.
Qed.

(** C6 (amended). For every non-empty [userId] and any two histories
    whose insertion-ordered subsequences of entries with that [userId]
    are equal, [calculate_sei(userId)] returns the same value; entries of
    other users do not affect it. *)
Theorem sei_depends_on_own_entries (u : string) (h1 h2 : History) :
  u <> EmptyString ->
  entries_of u h1 = entries_of u h2 ->
  calculate_sei (Some u) h1 = calculate_sei (Some u) h2.
Proof.
  intros Hu Heq. unfold calculate_sei.
  rewrite (truthy_nonempty u Hu). simpl. rewrite Heq. reflexivity.
Qed.

Lemma sei_depends_on_own_entries_witness :
  calculate_sei (Some "user_A"%string) [entry_of_A; entry_of_B]
  = calculate_sei (Some "user_A"%string) [entry_of_B; entry_of_A; entry_of_B].
Proof.
  apply (sei_depends_on_own_entries "user_A"
           [entry_of_A; entry_of_B] [entry_of_B; entry_of_A; entry_of_B]).
  - discriminate.
  - reflexivity.
Defined.

(** Appending an entry of another user leaves a user's SEI unchanged. *)
Lemma sei_ignores_other_users (u : string) (e : HistoryEntry)
  (history : History) :
  u <> EmptyString -> h_userId e <> u ->
  calculate_sei (Some u) (history ++ [e]) = calculate_sei (Some u) history.
Proof.
  intros Hu He. unfold calculate_sei. rewrite (truthy_nonempty u Hu). simpl.
  rewrite entries_of_app. unfold entries_of at 2. simpl.
  destruct (String.eqb_spec (h_userId e) u) as [Heq|_]; [contradiction|].
  rewrite app_nil_r. reflexivity.
Qed.

(* ===================================================================== *)
(** ** Records without a section *)
(* ===================================================================== *)

Lemma hover_ratio_absent (data : Data) :
  get_hoverCounts data = None -> hover_ratio data = 0.
Proof.
  unfold get_hoverCounts, hover_ratio. intros ->. simpl.
  destruct (decide (size (∅ : gmap string R) = 0%nat)) as [_|Hn].
  - reflexivity.
  - exfalso. apply Hn. apply map_size_empty.
Qed.

Lemma sci_of_sectionless : calculate_sci sectionless_record = 10.
Proof.
  unfold calculate_sci. rewrite hover_ratio_absent by reflexivity.
  simpl. split_real.
Qed.

Lemma uei_of_sectionless : calculate_uei sectionless_record = 75.
Proof.
  unfold calculate_uei, uei_raw, initiation_time, speed_penalty. simpl.
  split_real.
Qed.

(** C2, as stated, fails: on a record with none of the three sections
    [calculate_all] raises nothing; with [update_history=True] and an
    empty history it returns scores and leaves one entry (SCI 10, UEI 75)
    in the history. *)
Lemma calculate_all_sectionless_counterexample :
  ~ has_sections sectionless_record
  /\ snd (calculate_all sectionless_record true [])
     = [ {| h_sci := 10; h_uei := 75; h_userId := EmptyString;
            h_questionId := EmptyString; h_timestamp := EmptyString |} ].
Proof.
  split.
  - intros (H & _). destruct H as [m Hm]. discriminate Hm.
  - rewrite calculate_all_history. unfold make_entry.
    rewrite sci_of_sectionless, uei_of_sectionless. reflexivity.
Qed.

Lemma missing_fields_nonempty (data : Data) :
  ~ has_sections data ->
  List.filter (fun f => negb (has_field data f)) required_fields <> [].
Proof.
  intros Hno Hnil. apply Hno. unfold has_sections.
  unfold required_fields, has_field in Hnil. simpl in Hnil.
  destruct (metadata data), (trajectory data), (metrics data);
    simpl in Hnil; try discriminate Hnil.
  repeat split; eexists; reflexivity.
Qed.

(** [calculate_all] reads an absent section as the empty one. *)
Lemma calculate_all_defaults_sections (data : Data) (update_history : bool)
  (history : History) :
  calculate_all data update_history history
  = calculate_all (with_default_sections data) update_history history.
Proof. reflexivity. Qed.

(** C2 (amended). The [/calculate] endpoint rejects every request whose
    record lacks one of the sections [metadata], [trajectory], [metrics]:
    it answers with status 400 without calling [calculate_all], and the
    history is exactly as it was.  [calculate_all] itself validates
    nothing: it scores such a record as the one whose absent sections are
    empty. *)
Theorem calculate_rejects_missing_section (data : Data) (history : History) :
  ~ has_sections data ->
  (exists message : string,
      calculate (Some data) history = (Failure 400 message, history))
  /\ (forall update_history : bool,
        calculate_all data update_history history
        = calculate_all (with_default_sections data) update_history history).
Proof.
  intros Hno. split.
  - unfold calculate.
    pose proof (missing_fields_nonempty data Hno) as Hne.
    destruct (List.filter _ required_fields) as [|f fs].
    + contradiction.
    + eexists. reflexivity.
  - intros update_history. apply calculate_all_defaults_sections.
Qed.

Lemma calculate_rejects_missing_section_witness :
  exists message : string,
    calculate (Some sectionless_record) [entry_of_B]
    = (Failure 400 message, [entry_of_B]).
Proof.
  apply (calculate_rejects_missing_section sectionless_record [entry_of_B]).
  intros (H & _). destruct H as [m Hm]. discriminate Hm.
Defined.

(* ===================================================================== *)
(** ** Leaf fields and their defaults *)
(* ===================================================================== *)

Lemma sci_set_leaf_zero (l : Leaf) (data : Data) :
  get_leaf l data = None ->
  calculate_sci (set_leaf l 0 data) = calculate_sci data.
Proof.
  intros H. destruct_data data; destruct l; simpl in H; subst;
    reflexivity.
Qed.

Lemma uei_set_leaf_default (l : Leaf) (data : Data) :
  get_leaf l data = None ->
  calculate_uei (set_leaf l (uei_default l) data) = calculate_uei data.
Proof.
  intros H. destruct_data data; destruct l; simpl in H; subst;
    reflexivity.
Qed.

Lemma sci_set_hoverCounts_empty (data : Data) :
  get_hoverCounts data = None ->
  calculate_sci (set_hoverCounts ∅ data) = calculate_sci data.
Proof.
  intros H. destruct_data data; unfold get_hoverCounts in H; simpl in H;
    subst; reflexivity.
Qed.

Lemma uei_set_hoverCounts (hc : gmap string R) (data : Data) :
  calculate_uei (set_hoverCounts hc data) = calculate_uei data.
Proof. destruct_data data; reflexivity. Qed.

Lemma uei_of_bare : calculate_uei bare_record = 75.
Proof.
  unfold calculate_uei, uei_raw, initiation_time, speed_penalty. simpl.
  split_real.
Qed.

Lemma uei_of_bare_instant :
  calculate_uei (set_leaf LInitiationTimeMs 0 bare_record) = 52.5.
Proof.
  unfold calculate_uei, uei_raw, initiation_time, speed_penalty. simpl.
  split_real.
Qed.

(** C3, as stated, fails for UEI: [bare_record] has the three sections
    and no [initiationTimeMs]; its UEI is 75, while the same record with
    [initiationTimeMs = 0] has UEI 52.5 (0 draws the 0.7 penalty, the
    absent field is read as 200). *)
Lemma absent_leaf_not_zero_counterexample :
  has_sections bare_record
  /\ get_leaf LInitiationTimeMs bare_record = None
  /\ calculate_uei (set_leaf LInitiationTimeMs 0 bare_record)
     <> calculate_uei bare_record.
Proof.
  split; [|split].
  - repeat split; eexists; reflexivity.
  - reflexivity.
  - rewrite uei_of_bare, uei_of_bare_instant. lra.
Qed.

(** C3 (amended). Scoring a record with a metrics leaf field absent
    gives the same SCI as with that field present as 0 (an empty mapping
    for [hoverCounts]), and the same UEI as with that field present as
    the fallback [calculate_uei] uses for it: 0 for the four deviation
    fields, 500 for [averageVelocityPxPerSec], 1000 for
    [maximalVelocityPxPerSec], 1.0 for [angleEntropy], 200 for
    [initiationTimeMs]; [hoverCounts] and [totalHovers] do not enter
    UEI. *)
Theorem absent_leaf_defaults (data : Data) :
  (forall l : Leaf,
      get_leaf l data = None ->
      calculate_sci (set_leaf l 0 data) = calculate_sci data
      /\ calculate_uei (set_leaf l (uei_default l) data) = calculate_uei data)
  /\ (get_hoverCounts data = None ->
      calculate_sci (set_hoverCounts ∅ data) = calculate_sci data
      /\ calculate_uei (set_hoverCounts ∅ data) = calculate_uei data).
Proof.
  split.
  - intros l H. split.
    + apply sci_set_leaf_zero, H.
    + apply uei_set_leaf_default, H.
  - intros H. split.
    + apply sci_set_hoverCounts_empty, H.
    + apply uei_set_hoverCounts.
Qed.

Lemma absent_leaf_defaults_witness :
  (calculate_sci (set_leaf LAverageVelocityPxPerSec 0 bare_record)
   = calculate_sci bare_record
   /\ calculate_uei (set_leaf LAverageVelocityPxPerSec 500 bare_record)
      = calculate_uei bare_record)
  /\ (calculate_sci (set_hoverCounts ∅ bare_record)
      = calculate_sci bare_record
      /\ calculate_uei (set_hoverCounts ∅ bare_record)
         = calculate_uei bare_record).
Proof.
  destruct (absent_leaf_defaults bare_record) as [Hleaf Hhover].
  split.
  - apply (Hleaf LAverageVelocityPxPerSec). reflexivity.
  - apply Hhover. reflexivity.
Defined.

(* ===================================================================== *)
(** ** A sample of the cumulative SEI *)
(* ===================================================================== *)

Lemma sci_of_bare : calculate_sci bare_record = 10.
Proof.
  unfold calculate_sci. rewrite hover_ratio_absent by reflexivity.
  simpl. split_real.
Qed.

(** The aggregate of one, two and three sample entries with equal UEI. *)
Lemma sei_of_samples :
  aggregate_sei [entry_bare] = 62
  /\ aggregate_sei [entry_prior; entry_bare] = 75
  /\ aggregate_sei [entry_prior; entry_bare; entry_bare] = 212 / 3.
Proof.
  assert (Hstd : forall n, std 1 (repeat 75 (S n)) = 0).
  { intros n. unfold std.
    assert (Hm : mean (repeat 75 (S n)) = 75).
    { unfold mean. rewrite repeat_length.
      assert (Hs : forall k, Rsum (repeat 75 k) = INR k * 75).
      { induction k as [|k IH]; [unfold Rsum; simpl; lra|].
        change (Rsum (repeat 75 (S k))) with (75 + Rsum (repeat 75 k)).
        rewrite IH, S_INR. lra. }
      rewrite Hs. assert (0 < INR (S n)) by (apply lt_0_INR; lia).
      field. lra. }
    rewrite Hm, map_repeat.
    assert (Hz : forall k, Rsum (repeat ((75 - 75) * (75 - 75)) k) = 0).
    { induction k as [|k IH]; [reflexivity|].
      change (Rsum (repeat ((75 - 75) * (75 - 75)) (S k)))
        with ((75 - 75) * (75 - 75)
              + Rsum (repeat ((75 - 75) * (75 - 75)) k)).
      rewrite IH. ring. }
    rewrite Hz. unfold Rdiv. rewrite Rmult_0_l. apply sqrt_0. }
  split; [|split].
  - unfold aggregate_sei, weighted_sei, mean, count_if, Rltb. simpl.
    split_real; simpl; lra.
  - unfold aggregate_sei, weighted_sei. cbv zeta.
    change (map h_uei [entry_prior; entry_bare]) with (repeat 75 2).
    rewrite (Hstd 1%nat).
    unfold mean, count_if, Rltb. simpl. split_real; simpl; lra.
  - unfold aggregate_sei, weighted_sei. cbv zeta.
    change (map h_uei [entry_prior; entry_bare; entry_bare])
      with (repeat 75 3).
    rewrite (Hstd 2%nat).
    unfold mean, count_if, Rltb. simpl. split_real; simpl; lra.
Qed.

(** On a history that is not empty the second call is told apart from
    its neighbours: after [entry_prior], scoring [bare_record] twice
    leaves three entries and an SEI of 212/3 over them, where the history
    of the first call alone gives 75 and the new entry alone 62. *)
Example second_call_after_prior_entry :
  let first := calculate_all bare_record true [entry_prior] in
  let second := calculate_all bare_record true (snd first) in
  snd second = [entry_prior; entry_bare; entry_bare]
  /\ calculate_sei None (snd second) = 212 / 3
  /\ calculate_sei None (snd first) = 75
  /\ calculate_sei None [entry_bare] = 62.
Proof.
  intros first second.
  assert (He : make_entry (calculate_sci bare_record)
                 (calculate_uei bare_record) no_metadata = entry_bare).
  { rewrite sci_of_bare, uei_of_bare. reflexivity. }
  assert (H1 : snd first = [entry_prior; entry_bare]).
  { unfold first. rewrite calculate_all_history. simpl default.
    rewrite He. reflexivity. }
  assert (H2 : snd second = [entry_prior; entry_bare; entry_bare]).
  { unfold second. rewrite calculate_all_history, H1. simpl default.
    rewrite He. reflexivity. }
  destruct sei_of_samples as (S1 & S2 & S3).
  rewrite H1, H2. unfold calculate_sei. simpl truthy. cbv iota.
  split; [reflexivity | split; [exact S3 | split; [exact S2 | exact S1]]].
Qed.

(* ===================================================================== *)
(** ** The initiation-time penalty *)
(* ===================================================================== *)

Lemma uei_raw_set_initiation (t : R) (data : Data) :
  uei_raw (set_leaf LInitiationTimeMs t data) = uei_raw data.
Proof. destruct_data data; reflexivity. Qed.

Lemma initiation_time_set (t : R) (data : Data) :
  initiation_time (set_leaf LInitiationTimeMs t data) = t.
Proof. destruct_data data; reflexivity. Qed.

(** Setting a leaf to the value it has changes nothing: two records that
    differ in one present leaf are [set_leaf] of a common record. *)
Lemma set_leaf_present (l : Leaf) (v : R) (data : Data) :
  get_leaf l data = Some v -> set_leaf l v data = data.
Proof.
  intros H. destruct_data data; destruct l; simpl in H;
    try discriminate H; subst; reflexivity.
Qed.

Lemma speed_penalty_cases (t : R) :
  (t < 100 -> speed_penalty t = 0.7) /\ (100 <= t -> speed_penalty t = 1).
Proof. unfold speed_penalty. split; intros H; split_real. Qed.

(** C8. Of two records that differ only in [initiationTimeMs], one below
    100 and one at or above 100, the second has the greater or equal UEI:
    the multiplier is 0.7 exactly when [initiationTimeMs < 100] and 1.0
    otherwise. *)
Theorem slow_start_scores_no_less (data : Data) (t1 t2 : R) :
  t1 < 100 -> 100 <= t2 ->
  calculate_uei (set_leaf LInitiationTimeMs t1 data)
  = Rmax 0 (Rmin 100 (uei_raw data * 0.7 * 100))
  /\ calculate_uei (set_leaf LInitiationTimeMs t2 data)
     = Rmax 0 (Rmin 100 (uei_raw data * 1.0 * 100))
  /\ calculate_uei (set_leaf LInitiationTimeMs t1 data)
     <= calculate_uei (set_leaf LInitiationTimeMs t2 data).
Proof.
  intros H1 H2.
  destruct (speed_penalty_cases t1) as [P1 _].
  destruct (speed_penalty_cases t2) as [_ P2].
  unfold calculate_uei.
  rewrite !uei_raw_set_initiation, !initiation_time_set.
  rewrite (P1 H1), (P2 H2).
  split; [reflexivity | split].
  - do 3 f_equal. lra.
  - generalize (uei_raw data). intros r. split_real.
Qed.

Lemma slow_start_scores_no_less_witness :
  calculate_uei (set_leaf LInitiationTimeMs 50 bare_record)
  <= calculate_uei (set_leaf LInitiationTimeMs 150 bare_record).
Proof.
  apply (slow_start_scores_no_less bare_record 50 150); lra.
Defined.

(* ===================================================================== *)
(** ** The hover ratio *)
(* ===================================================================== *)

Lemma Rsum_perm (l1 l2 : list R) : l1 ≡ₚ l2 -> Rsum l1 = Rsum l2.
Proof.
  induction 1 as [|a l l' _ IH|a b l|l l' l'' _ IH1 _ IH2];
    unfold Rsum in *; simpl.
  - reflexivity.
  - lra.
  - lra.
  - congruence.
Qed.

Lemma sum_values_empty : sum_values ∅ = 0.
Proof. unfold sum_values. rewrite map_to_list_empty. reflexivity. Qed.

Lemma sum_values_singleton (k : string) (v : R) : sum_values {[k := v]} = v.
Proof.
  unfold sum_values. rewrite map_to_list_singleton. simpl. lra.
Qed.

Lemma sum_values_insert (k : string) (v : R) (m : gmap string R) :
  m !! k = None -> sum_values (<[k := v]> m) = v + sum_values m.
Proof.
  intros Hk. unfold sum_values.
  rewrite (Rsum_perm _ (map snd ((k, v) :: map_to_list m))).
  - reflexivity.
  - apply Permutation_map. apply map_to_list_insert. exact Hk.
Qed.

(** One key's count is the total minus the counts of the other keys. *)
Lemma sum_values_lookup (k : string) (v : R) (m : gmap string R) :
  m !! k = Some v -> sum_values m = v + sum_values (delete k m).
Proof.
  intros Hk. rewrite <- (insert_delete_id m k v Hk) at 1.
  apply sum_values_insert. apply lookup_delete_eq.
Qed.

Lemma sum_values_nonneg (m : gmap string R) :
  map_Forall (fun _ v => 0 <= v) m -> 0 <= sum_values m.
Proof.
  intros H. apply map_Forall_to_list in H. unfold sum_values.
  induction H as [|[k v] l Hv _ IH]; unfold Rsum in *; simpl in *.
  - lra.
  - lra.
Qed.

Lemma hover_ratio_present (data : Data) (hc : gmap string R) :
  get_hoverCounts data = Some hc ->
  hover_ratio data
  = if Rlt_dec 0 (sum_values hc)
    then (sum_values hc
          - default 0
              (hc !! default EmptyString
                       (selectedResponse
                          (default no_metadata (metadata data)))))
         / sum_values hc
    else 0.
Proof.
  unfold get_hoverCounts, hover_ratio. intros ->. simpl.
  destruct (decide (size hc = 0%nat)) as [Hz|_]; [|reflexivity].
  apply map_size_empty_inv in Hz. subst hc. rewrite sum_values_empty.
  split_real.
Qed.

Lemma hover_ratio_ignores_totalHovers (v : R) (data : Data) :
  hover_ratio (set_leaf LTotalHovers v data) = hover_ratio data.
Proof. destruct_data data; reflexivity. Qed.

Lemma sum_values_AB : sum_values counts_AB = 3.
Proof.
  unfold counts_AB. rewrite sum_values_insert, sum_values_singleton.
  - lra.
  - apply lookup_singleton_ne. discriminate.
Qed.

Lemma counts_AB_selected : counts_AB !! "A"%string = Some 2.
Proof. unfold counts_AB. apply lookup_insert_eq. Qed.

Lemma hover_ratio_of_hover_record (total : R) :
  hover_ratio (hover_record total) = 1 / 3.
Proof.
  rewrite (hover_ratio_present _ counts_AB) by reflexivity.
  rewrite sum_values_AB. simpl. rewrite counts_AB_selected. simpl.
  split_real.
Qed.

Lemma hover_ratio_spec_of_hover_record_4 :
  hover_ratio_spec (hover_record 4) = 1 / 2.
Proof.
  unfold hover_ratio_spec. simpl. rewrite counts_AB_selected. simpl.
  destruct (Req_dec_T 4 0); lra.
Qed.

(** C4, as stated, fails: with [hoverCounts = {"A": 2, "B": 1}] and
    [selectedResponse = "A"], the record's [totalHovers = 4] would give
    (4 - 2) / 4 = 1/2, but the code divides by the sum of the counts and
    yields 1/3; and with [totalHovers = 0] the ratio is still 1/3, not 0. *)
Lemma hover_ratio_totalHovers_counterexample :
  hover_ratio (hover_record 4) <> hover_ratio_spec (hover_record 4)
  /\ get_leaf LTotalHovers (hover_record 0) = Some 0
  /\ hover_ratio (hover_record 0) <> 0.
Proof.
  rewrite !hover_ratio_of_hover_record, hover_ratio_spec_of_hover_record_4.
  split; [lra | split; [reflexivity | lra]].
Qed.

(** C4 (amended). In the SCI computation the hover ratio is
    (T - hoverCounts[selectedResponse]) / T where T is the sum of the
    values of [hoverCounts] (a [selectedResponse] that is not a key counts
    0); the record's [totalHovers] field is not read; the ratio is 0 when
    [hoverCounts] is absent, or when T is 0 or less (in particular for an
    empty mapping). *)
Theorem hover_ratio_from_counts (data : Data) :
  let selected :=
    default EmptyString
      (selectedResponse (default no_metadata (metadata data))) in
  (forall v : R, hover_ratio (set_leaf LTotalHovers v data) = hover_ratio data)
  /\ (get_hoverCounts data = None -> hover_ratio data = 0)
  /\ (forall hc : gmap string R,
        get_hoverCounts data = Some hc ->
        (0 < sum_values hc ->
         hover_ratio data
         = (sum_values hc - default 0 (hc !! selected)) / sum_values hc)
        /\ (sum_values hc <= 0 -> hover_ratio data = 0)
        /\ (hc = ∅ -> hover_ratio data = 0)).
Proof.
  intros selected. split; [|split].
  - intros v. apply hover_ratio_ignores_totalHovers.
  - apply hover_ratio_absent.
  - intros hc Hhc. rewrite (hover_ratio_present data hc Hhc).
    fold selected. split; [|split].
    + intros Hpos. split_real.
    + intros Hle. split_real.
    + intros ->. rewrite sum_values_empty. split_real.
Qed.

Lemma hover_ratio_from_counts_witness :
  hover_ratio (hover_record 4)
  = (sum_values counts_AB - default 0 (counts_AB !! "A"%string))
    / sum_values counts_AB
  /\ hover_ratio bare_record = 0.
Proof.
  split.
  - destruct (hover_ratio_from_counts (hover_record 4)) as (_ & _ & H).
    destruct (H counts_AB) as (Hpos & _).
    + reflexivity.
    + apply Hpos. rewrite sum_values_AB. lra.
  - destruct (hover_ratio_from_counts bare_record) as (_ & H & _).
    apply H. reflexivity.
Defined.

(** On a record whose [totalHovers] is the sum of its non-negative
    counts, the code and the specification's wording agree. *)
Lemma hover_ratio_agrees_with_spec (data : Data) (hc : gmap string R) :
  get_hoverCounts data = Some hc ->
  get_leaf LTotalHovers data = Some (sum_values hc) ->
  0 <= sum_values hc ->
  hover_ratio data = hover_ratio_spec data.
Proof.
  intros Hhc Htot Hnn. rewrite (hover_ratio_present data hc Hhc).
  unfold hover_ratio_spec.
  unfold get_hoverCounts in Hhc. simpl in Htot. rewrite Hhc, Htot. simpl.
  destruct (Req_dec_T (sum_values hc) 0) as [Hz|Hnz]; split_real.
Qed.

(* ===================================================================== *)
(** ** The range of the three scores *)
(* ===================================================================== *)

Lemma div_unit (a t : R) : 0 < t -> 0 <= a <= t -> 0 <= a / t <= 1.
Proof.
  intros Ht [Ha Hat]. unfold Rdiv.
  pose proof (Rinv_0_lt_compat t Ht) as Hq.
  assert (Hone : t * / t = 1) by (apply Rinv_r; lra).
  split; nra.
Qed.

Lemma Rmin_unit (a : R) : 0 <= a -> 0 <= Rmin a 1 <= 1.
Proof. intros Ha. split; split_real. Qed.

Lemma Rsum_bounds (a b : R) (l : list R) :
  Forall (fun v => a <= v <= b) l ->
  a * INR (length l) <= Rsum l <= b * INR (length l).
Proof.
  induction 1 as [|v l [Hv1 Hv2] _ IH].
  - simpl. lra.
  - change (Rsum (v :: l)) with (v + Rsum l).
    change (length (v :: l)) with (S (length l)). rewrite S_INR. lra.
Qed.

Lemma length_pos_INR {A : Type} (l : list A) : l <> [] -> 0 < INR (length l).
Proof.
  intros Hne. apply lt_0_INR. destruct l; [contradiction | simpl; lia].
Qed.

Lemma mean_bounds (a b : R) (l : list R) :
  l <> [] -> Forall (fun v => a <= v <= b) l -> a <= mean l <= b.
Proof.
  intros Hne Hl. pose proof (Rsum_bounds a b l Hl) as [H1 H2].
  pose proof (length_pos_INR l Hne) as Hn.
  unfold mean, Rdiv.
  pose proof (Rinv_0_lt_compat _ Hn) as Hq.
  assert (Hone : INR (length l) * / INR (length l) = 1)
    by (apply Rinv_r; lra).
  assert (Ea : a = a * INR (length l) * / INR (length l))
    by (rewrite Rmult_assoc, Hone; lra).
  assert (Eb : b = b * INR (length l) * / INR (length l))
    by (rewrite Rmult_assoc, Hone; lra).
  split.
  - apply Rle_trans with (a * INR (length l) * / INR (length l));
      [rewrite <- Ea; lra | apply Rmult_le_compat_r; lra].
  - apply Rle_trans with (b * INR (length l) * / INR (length l));
      [apply Rmult_le_compat_r; lra | rewrite <- Eb; lra].
Qed.

Lemma mean_nonneg (l : list R) :
  l <> [] -> Forall (fun v => 0 <= v) l -> 0 <= mean l.
Proof.
  intros Hne Hl. pose proof (length_pos_INR l Hne) as Hn.
  assert (Hs : 0 <= Rsum l).
  { clear Hne Hn. induction Hl as [|v l Hv _ IH]; unfold Rsum in *; simpl.
    - lra.
    - lra. }
  unfold mean, Rdiv. pose proof (Rinv_0_lt_compat _ Hn) as Hq. nra.
Qed.

Lemma count_if_ratio {A : Type} (p : A -> bool) (l : list A) (n : nat) :
  l <> [] -> n = length l -> 0 <= INR (count_if p l) / INR n <= 1.
Proof.
  intros Hne ->. apply div_unit.
  - apply length_pos_INR, Hne.
  - split; [apply pos_INR|]. apply le_INR. unfold count_if.
    apply List.filter_length_le.
Qed.

(** UEI is clamped: it lies in [[0, 100]] for every record. *)
Lemma uei_in_range (data : Data) : 0 <= calculate_uei data <= 100.
Proof.
  unfold calculate_uei.
  generalize (uei_raw data * speed_penalty (initiation_time data) * 100).
  intros r. split; split_real.
Qed.

Lemma averageDeviation_nonneg (trajectory : list Point) :
  0 <= averageDeviation (calculate_trajectory_metrics trajectory).
Proof.
  unfold calculate_trajectory_metrics.
  destruct (length trajectory <? 2)%nat; simpl; [lra|].
  destruct (Rlt_dec 0 _) as [Hpos|_]; [|lra].
  match goal with
  | |- 0 <= match ?l with [] => _ | _ :: _ => _ end =>
      assert (Hall : Forall (fun v => 0 <= v) l); [|destruct l eqn:El]
  end.
  - apply List.Forall_map, List.Forall_forall. intros p _.
    pose proof (Rabs_pos
                  ((List.last (map y trajectory) 0 - hd 0 (map y trajectory))
                   * x p
                   - (List.last (map x trajectory) 0
                      - hd 0 (map x trajectory)) * y p
                   + List.last (map x trajectory) 0 * hd 0 (map y trajectory)
                   - List.last (map y trajectory) 0
                     * hd 0 (map x trajectory))) as Habs.
    pose proof (Rinv_0_lt_compat _ Hpos) as Hq.
    unfold Rdiv. nra.
  - lra.
  - apply mean_nonneg; [discriminate | exact Hall].
Qed.

Lemma hover_ratio_unit (data : Data) :
  map_Forall (fun _ v => 0 <= v) (default ∅ (get_hoverCounts data)) ->
  0 <= hover_ratio data <= 1.
Proof.
  intros Hnn. destruct (get_hoverCounts data) as [hc|] eqn:Ehc.
  - rewrite (hover_ratio_present data hc Ehc). simpl in Hnn.
    destruct (Rlt_dec 0 (sum_values hc)) as [Hpos|_]; [|lra].
    apply div_unit; [exact Hpos|].
    destruct (hc !! _) as [v|] eqn:Ek; simpl.
    + pose proof (Hnn _ _ Ek) as Hv. simpl in Hv.
      pose proof (sum_values_lookup _ v hc Ek) as Hsplit.
      assert (Hrest : 0 <= sum_values (delete
                (default EmptyString
                   (selectedResponse (default no_metadata (metadata data))))
                hc)).
      { apply sum_values_nonneg. apply map_Forall_delete. exact Hnn. }
      lra.
    + lra.
  - rewrite hover_ratio_absent by exact Ehc. lra.
Qed.

Lemma weighted_sum_unit (a b c d e f : R) :
  0 <= a <= 1 -> 0 <= b <= 1 -> 0 <= c <= 1 ->
  0 <= d <= 1 -> 0 <= e <= 1 -> 0 <= f <= 1 ->
  0 <= (0.25 * a + 0.20 * b + 0.20 * c + 0.15 * d + 0.10 * e + 0.10 * f)
       * 100 <= 100.
Proof. intros. lra. Qed.

(** SCI has no final clamp; it lies in [[0, 100]] when the inputs its
    normalisations assume non-negative are so. *)
Lemma sci_in_range (data : Data) :
  nonneg_inputs data -> 0 <= calculate_sci data <= 100.
Proof.
  intros (Hdev & Hauc & Hvel & Hcounts).
  unfold get_leaf in Hdev, Hauc, Hvel. cbv zeta in Hdev, Hauc, Hvel.
  unfold calculate_sci. cbv zeta.
  apply weighted_sum_unit.
  - apply Rmin_unit. apply Rmult_le_pos; [apply pos_INR | lra].
  - apply Rmin_unit.
    pose proof (Rabs_pos (default 0 (maxDeviationNegative
      (default no_deviation (deviation (default no_metrics (metrics data)))))))
      as Habs.
    lra.
  - apply Rmin_unit.
    pose proof (Rabs_pos (default 0 (aucNegative
      (default no_deviation (deviation (default no_metrics (metrics data)))))))
      as Habs.
    lra.
  - apply Rmin_unit.
    pose proof (averageDeviation_nonneg (default [] (trajectory data))).
    lra.
  - pose proof (Rmin_unit (default 0 (averageVelocityPxPerSec
      (default no_velocity (velocity (default no_metrics (metrics data)))))
      / 2000)) as Hv.
    lra.
  - apply hover_ratio_unit, Hcounts.
Qed.

Lemma consistency_unit (cv : R) : 0 <= cv -> 0 <= 1 / (1 + cv) <= 1.
Proof. intros Hcv. apply div_unit; lra. Qed.

Lemma std_nonneg (ddof : nat) (l : list R) : 0 <= std ddof l.
Proof. unfold std. apply sqrt_pos. Qed.

(** SEI of a non-empty list of entries whose scores are in [[0, 100]]. *)
Lemma weighted_sei_in_range (history : History) :
  history <> [] ->
  Forall entry_in_range history -> 0 <= weighted_sei history <= 100.
Proof.
  intros Hne Hall.
  assert (Hu : Forall (fun v => 0 <= v <= 100) (map h_uei history)).
  { apply List.Forall_map. eapply List.Forall_impl; [|exact Hall].
    intros e He. apply He. }
  assert (Hs : Forall (fun v => 0 <= v <= 100) (map h_sci history)).
  { apply List.Forall_map. eapply List.Forall_impl; [|exact Hall].
    intros e He. apply He. }
  assert (Hnu : map h_uei history <> [])
    by (destruct history; [contradiction | discriminate]).
  assert (Hns : map h_sci history <> [])
    by (destruct history; [contradiction | discriminate]).
  assert (Hnc : combine (map h_sci history) (map h_uei history) <> [])
    by (destruct history; [contradiction | discriminate]).
  pose proof (mean_bounds 0 100 _ Hnu Hu) as Hmu.
  pose proof (mean_bounds 0 100 _ Hns Hs) as Hms.
  pose proof (count_if_ratio (fun u => Rltb 60 u) _ _ Hnu eq_refl) as Hhigh.
  pose proof (count_if_ratio (fun u => Rltb u 30) _ _ Hnu eq_refl) as Hlow.
  assert (Hbal := count_if_ratio
                    (fun su => Rltb 50 (fst su) && Rltb 60 (snd su))
                    _ (length (map h_uei history)) Hnc).
  rewrite length_combine, !length_map, Nat.min_id in Hbal.
  specialize (Hbal eq_refl). rewrite <- (length_map h_uei) in Hbal.
  unfold weighted_sei. cbv zeta.
  match goal with
  | |- context [1 / (1 + ?cv)] =>
      assert (Hcv : 0 <= cv); [|pose proof (consistency_unit cv Hcv) as Hcons]
  end.
  { destruct (1 <? length (map h_uei history))%nat; [|lra].
    destruct (Rlt_dec 0 (mean (map h_uei history))) as [Hpos|_]; [|lra].
    pose proof (std_nonneg 1 (map h_uei history)) as Hsd.
    pose proof (Rinv_0_lt_compat _ Hpos) as Hq.
    unfold Rdiv. nra. }
  lra.
Qed.

(** SEI over entries whose scores are in [[0, 100]] is in [[0, 100]]. *)
Lemma aggregate_sei_in_range (history : History) :
  Forall entry_in_range history -> 0 <= aggregate_sei history <= 100.
Proof.
  intros Hall. destruct history as [|e h] eqn:Eh.
  - simpl. lra.
  - change (aggregate_sei (e :: h)) with (weighted_sei (e :: h)).
    apply weighted_sei_in_range; [discriminate | exact Hall].
Qed.

Lemma calculate_sei_in_range (user_id : option string) (history : History) :
  Forall entry_in_range history ->
  0 <= calculate_sei user_id history <= 100.
Proof.
  intros Hall. rewrite calculate_sei_get_history.
  apply aggregate_sei_in_range. unfold get_history.
  destruct (truthy user_id); [|exact Hall].
  unfold entries_of. apply List.Forall_forall. intros e He.
  apply List.filter_In in He as [He _].
  revert e He. apply List.Forall_forall. exact Hall.
Qed.

(** With non-negative inputs, and a history built from such records,
    the three scores lie in [[0, 100]] and the history stays in range. *)
Lemma scores_in_range (data : Data) (update_history : bool)
  (history : History) :
  nonneg_inputs data ->
  Forall entry_in_range history ->
  let history' := snd (calculate_all data update_history history) in
  0 <= calculate_sci data <= 100
  /\ 0 <= calculate_uei data <= 100
  /\ 0 <= calculate_sei (userId (default no_metadata (metadata data)))
                        history' <= 100
  /\ Forall entry_in_range history'.
Proof.
  intros Hnn Hall history'.
  pose proof (sci_in_range data Hnn) as Hsci.
  pose proof (uei_in_range data) as Huei.
  assert (Hall' : Forall entry_in_range history').
  { unfold history'. rewrite calculate_all_history.
    destruct update_history; [|exact Hall].
    apply List.Forall_app. split; [exact Hall|].
    constructor; [|constructor]. split; assumption. }
  repeat split; try lra; try exact Hall';
    apply calculate_sei_in_range, Hall'.
Qed.

Lemma sci_of_negative_deviation :
  calculate_sci negative_deviation_record = -390.
Proof.
  unfold calculate_sci. rewrite hover_ratio_absent by reflexivity.
  simpl. split_real.
Qed.

Lemma uei_of_negative_deviation :
  calculate_uei negative_deviation_record = 100.
Proof.
  unfold calculate_uei, uei_raw, initiation_time, speed_penalty. simpl.
  split_real.
Qed.

(** C1 on the code: [negative_deviation_record] has the three sections,
    yet its SCI is -390, below 0, because [calculate_sci] bounds each
    normalised component above by 1 and never below (UEI, which has the
    final clamp, is 100); and the SEI computed once this record is in the
    history is -8, below 0 as well. *)
Theorem negative_deviation_escapes_range :
  has_sections negative_deviation_record
  /\ calculate_sci negative_deviation_record = -390
  /\ calculate_uei negative_deviation_record = 100
  /\ calculate_sei None
       (snd (calculate_all negative_deviation_record true [])) = -8.
Proof.
  split; [|split; [|split]].
  - repeat split; eexists; reflexivity.
  - apply sci_of_negative_deviation.
  - apply uei_of_negative_deviation.
  - rewrite calculate_all_history. unfold make_entry.
    rewrite sci_of_negative_deviation, uei_of_negative_deviation.
    unfold calculate_sei, aggregate_sei, weighted_sei, mean, count_if, Rltb.
    simpl. split_real; simpl; lra.
Qed.

(* ===================================================================== *)
(** ** [normalize_0_1] *)
(* ===================================================================== *)

Lemma running_min_spec (v : R) (t : list R) :
  In (running_min v t) (v :: t) /\ Forall (fun u => running_min v t <= u) (v :: t).
Proof.
  unfold running_min. revert v. induction t as [|a t IH]; intros v; simpl.
  - split; [left; reflexivity | constructor; [lra | constructor]].
  - destruct (IH (Rmin v a)) as [Hin Hall].
    apply List.Forall_cons_iff in Hall as [Hm Hall].
    split.
    + destruct Hin as [Heq | Hin].
      * rewrite <- Heq. unfold Rmin. destruct (Rle_dec v a); [left | right; left]; reflexivity.
      * right. right. exact Hin.
    + assert (Hv : Rmin v a <= v) by apply Rmin_l.
      assert (Ha : Rmin v a <= a) by apply Rmin_r.
      constructor; [lra | constructor; [lra | exact Hall]].
Qed.

Lemma running_max_spec (v : R) (t : list R) :
  In (running_max v t) (v :: t) /\ Forall (fun u => u <= running_max v t) (v :: t).
Proof.
  unfold running_max. revert v. induction t as [|a t IH]; intros v; simpl.
  - split; [left; reflexivity | constructor; [lra | constructor]].
  - destruct (IH (Rmax v a)) as [Hin Hall].
    apply List.Forall_cons_iff in Hall as [Hm Hall].
    split.
    + destruct Hin as [Heq | Hin].
      * rewrite <- Heq. unfold Rmax. destruct (Rle_dec v a); [right; left | left]; reflexivity.
      * right. right. exact Hin.
    + assert (Hv : v <= Rmax v a) by apply Rmax_l.
      assert (Ha : a <= Rmax v a) by apply Rmax_r.
      constructor; [lra | constructor; [lra | exact Hall]].
Qed.

Lemma normalize_length (values : list R) :
  length (normalize_0_1 values) = length values.
Proof.
  destruct values as [|v t]; [reflexivity|]. unfold normalize_0_1.
  destruct (Req_dec_T _ _).
  - apply repeat_length.
  - apply length_map.
Qed.

(** X1. [normalize_0_1] keeps the length of its input and every value it
    returns lies in [[0, 1]]. *)
Theorem normalize_0_1_unit (values : list R) :
  length (normalize_0_1 values) = length values
  /\ Forall (fun u => 0 <= u <= 1) (normalize_0_1 values).
Proof.
  split; [apply normalize_length|].
  destruct values as [|v t]; [constructor|]. unfold normalize_0_1.
  destruct (running_min_spec v t) as [_ Hmin].
  destruct (running_max_spec v t) as [_ Hmax].
  destruct (Req_dec_T _ _) as [Heq|Hne].
  - apply List.Forall_forall. intros u Hu. apply repeat_spec in Hu. lra.
  - apply List.Forall_map. apply List.Forall_forall. intros u Hu.
    pose proof (proj1 (List.Forall_forall _ _) Hmin u Hu) as H1.
    pose proof (proj1 (List.Forall_forall _ _) Hmax u Hu) as H2.
    simpl in H1, H2. apply div_unit; lra.
Qed.

(** X2. When the input of [normalize_0_1] holds two different values, the
    output contains 0 (at the minimum) and 1 (at the maximum). *)
Theorem normalize_0_1_extremes (values : list R) (a b : R) :
  In a values -> In b values -> a <> b ->
  In 0 (normalize_0_1 values) /\ In 1 (normalize_0_1 values).
Proof.
  intros Ha Hb Hab. destruct values as [|v t]; [contradiction|].
  unfold normalize_0_1.
  destruct (running_min_spec v t) as [Hmin_in Hmin].
  destruct (running_max_spec v t) as [Hmax_in Hmax].
  destruct (Req_dec_T _ _) as [Heq|Hne].
  - exfalso. apply Hab.
    pose proof (proj1 (List.Forall_forall _ _) Hmin a Ha) as H1.
    pose proof (proj1 (List.Forall_forall _ _) Hmax a Ha) as H2.
    pose proof (proj1 (List.Forall_forall _ _) Hmin b Hb) as H3.
    pose proof (proj1 (List.Forall_forall _ _) Hmax b Hb) as H4.
    simpl in *. lra.
  - split.
    + apply List.in_map_iff. exists (running_min v t). split; [|exact Hmin_in].
      unfold Rdiv. lra.
    + apply List.in_map_iff. exists (running_max v t). split; [|exact Hmax_in].
      apply Rinv_r. lra.
Qed.

(** X3. On a non-empty list whose values are all equal (a single value in
    particular) [normalize_0_1] returns 0.5 everywhere: there is no
    division by the zero range. *)
Theorem normalize_0_1_constant (v : R) (n : nat) :
  normalize_0_1 (repeat v (S n)) = repeat 0.5 (S n).
Proof.
  unfold normalize_0_1. change (repeat v (S n)) with (v :: repeat v n).
  destruct (running_min_spec v (repeat v n)) as [Hmin_in _].
  destruct (running_max_spec v (repeat v n)) as [Hmax_in _].
  change (v :: repeat v n) with (repeat v (S n)) in Hmin_in, Hmax_in.
  apply repeat_spec in Hmin_in, Hmax_in.
  destruct (Req_dec_T _ _) as [_|Hne].
  - simpl. rewrite repeat_length. reflexivity.
  - exfalso. apply Hne. congruence.
Qed.

Lemma normalize_0_1_extremes_witness :
  In 0 (normalize_0_1 [1; 3]) /\ In 1 (normalize_0_1 [1; 3]).
Proof.
  apply (normalize_0_1_extremes [1; 3] 1 3).
  - left. reflexivity.
  - right. left. reflexivity.
  - lra.
Defined.

(* ===================================================================== *)
(** ** The geometry of a trajectory *)
(* ===================================================================== *)

Lemma Rsum_nonneg (l : list R) : Forall (fun v => 0 <= v) l -> 0 <= Rsum l.
Proof.
  induction 1 as [|v l Hv _ IH]; unfold Rsum in *; simpl; lra.
Qed.

Lemma pairwise_Forall {A B : Type} (f : A -> A -> B) (P : B -> Prop)
  (l : list A) :
  (forall a b, P (f a b)) -> Forall P (pairwise f l).
Proof.
  intros Hf. induction l as [|a [|b t] IH]; simpl; try constructor.
  - apply Hf.
  - exact IH.
Qed.

Lemma smoothness_unit (trajectory : list Point) :
  0 <= trajectorySmoothness (calculate_trajectory_metrics trajectory) <= 1.
Proof.
  unfold calculate_trajectory_metrics.
  destruct (length trajectory <? 2)%nat; simpl; [lra|].
  destruct (1 <? _)%nat; [|lra].
  match goal with |- context [std 0 ?l] => pose proof (std_nonneg 0 l) as Hsd end.
  pose proof PI_RGT_0 as Hpi.
  pose proof (Rinv_0_lt_compat PI Hpi) as Hq.
  match goal with
  | |- context [Rmax 0 ?e] =>
      assert (He : e <= 1) by (unfold Rdiv; nra);
      revert He; generalize e; intros r He
  end.
  split; split_real.
Qed.

Lemma trajectoryLength_nonneg (trajectory : list Point) :
  0 <= trajectoryLength (calculate_trajectory_metrics trajectory).
Proof.
  unfold calculate_trajectory_metrics.
  destruct (length trajectory <? 2)%nat; simpl; [lra|].
  apply Rsum_nonneg. apply pairwise_Forall. intros a b. apply sqrt_pos.
Qed.

(** X4. For every trajectory the average deviation and the length are
    non-negative and the smoothness lies in [[0, 1]]. *)
Theorem trajectory_metrics_ranges (trajectory : list Point) :
  let m := calculate_trajectory_metrics trajectory in
  0 <= averageDeviation m
  /\ 0 <= trajectoryLength m
  /\ 0 <= trajectorySmoothness m <= 1.
Proof.
  intros m. split; [|split].
  - apply averageDeviation_nonneg.
  - apply trajectoryLength_nonneg.
  - apply smoothness_unit.
Qed.

Lemma flips_bound (a : R) (c : list R) : (flips (a :: c) <= length c - 1)%nat.
Proof.
  revert a. induction c as [|b c IH]; intros a; [simpl; lia|].
  destruct c as [|d c]; [simpl; lia|].
  specialize (IH b).
  change (flips (a :: b :: d :: c))
    with ((if Rlt_dec ((b - a) * (d - b)) 0 then 1 else 0)
          + flips (b :: d :: c))%nat.
  simpl length in *. destruct (Rlt_dec _ _); lia.
Qed.

(** X5. Only interior points can be flips: [xFlips] and [yFlips] are at
    most the number of points minus two. *)
Theorem flips_at_most_interior (trajectory : list Point) :
  let m := calculate_trajectory_metrics trajectory in
  (xFlips m <= length trajectory - 2)%nat
  /\ (yFlips m <= length trajectory - 2)%nat.
Proof.
  unfold calculate_trajectory_metrics.
  destruct (length trajectory <? 2)%nat; simpl; [lia|].
  destruct trajectory as [|p t]; [simpl; lia|].
  pose proof (flips_bound (x p) (map x t)) as Hx.
  pose proof (flips_bound (y p) (map y t)) as Hy.
  rewrite length_map in Hx, Hy. simpl length. simpl map. lia.
Qed.

Lemma flips_nondecreasing (c : list R) : nondecreasing c -> flips c = 0%nat.
Proof.
  induction c as [|a [|b [|d c]] IH]; intros H; try reflexivity.
  change (flips (a :: b :: d :: c))
    with ((if Rlt_dec ((b - a) * (d - b)) 0 then 1 else 0)
          + flips (b :: d :: c))%nat.
  destruct H as (Hab & Hbd & Hrest).
  rewrite IH by (split; assumption).
  destruct (Rlt_dec _ _) as [Hlt|_]; [|reflexivity]. nra.
Qed.

(** X6. A trajectory whose [x] and [y] coordinates never decrease has no
    flips: a zero displacement is not a sign change. *)
Theorem steady_direction_no_flips (trajectory : list Point) :
  nondecreasing (map x trajectory) ->
  nondecreasing (map y trajectory) ->
  xFlips (calculate_trajectory_metrics trajectory) = 0%nat
  /\ yFlips (calculate_trajectory_metrics trajectory) = 0%nat.
Proof.
  intros Hx Hy. unfold calculate_trajectory_metrics.
  destruct (length trajectory <? 2)%nat; simpl; [split; reflexivity|].
  split; apply flips_nondecreasing; assumption.
Qed.

(** X7. A trajectory of two points has no flips, zero average deviation
    (there is no interior point), the distance between the points as
    length, and smoothness 1.0 (a single heading has no change). *)
Theorem two_point_metrics (p q : Point) :
  calculate_trajectory_metrics [p; q]
  = {| xFlips := 0; yFlips := 0; averageDeviation := 0;
       trajectoryLength := segment_length p q;
       trajectorySmoothness := 1 |}.
Proof.
  unfold calculate_trajectory_metrics. simpl.
  f_equal.
  - destruct (Rlt_dec _ _); reflexivity.
  - unfold Rsum. simpl. lra.
Qed.

Lemma steady_direction_no_flips_witness :
  xFlips (calculate_trajectory_metrics
            [Build_Point 0 0; Build_Point 1 1; Build_Point 2 2]) = 0%nat
  /\ yFlips (calculate_trajectory_metrics
               [Build_Point 0 0; Build_Point 1 1; Build_Point 2 2]) = 0%nat.
Proof.
  apply (steady_direction_no_flips
           [Build_Point 0 0; Build_Point 1 1; Build_Point 2 2]);
    simpl; repeat split; lra.
Defined.

Lemma last_map_default {A : Type} (g : A -> R) (l : list A) (d : A) :
  l <> [] -> List.last (map g l) 0 = g (List.last l d).
Proof.
  induction l as [|a [|b l] IH]; intros Hne; [contradiction | reflexivity |].
  change (List.last (map g (a :: b :: l)) 0)
    with (List.last (map g (b :: l)) 0).
  change (List.last (a :: b :: l) d) with (List.last (b :: l) d).
  apply IH. discriminate.
Qed.

(** X9. When the last point coincides with the first, the ideal line has
    length 0 and the average deviation is 0.0: nothing is divided by the
    zero length. *)
Theorem closed_path_no_deviation (p : Point) (rest : list Point) :
  List.last (p :: rest) p = p ->
  averageDeviation (calculate_trajectory_metrics (p :: rest)) = 0.
Proof.
  intros Hclosed. unfold calculate_trajectory_metrics.
  destruct (length (p :: rest) <? 2)%nat; [reflexivity|].
  cbv zeta.
  rewrite (last_map_default x (p :: rest) p) by discriminate.
  rewrite (last_map_default y (p :: rest) p) by discriminate.
  rewrite Hclosed. simpl hd.
  replace ((x p - x p) * (x p - x p) + (y p - y p) * (y p - y p)) with 0
    by ring.
  rewrite sqrt_0. simpl.
  destruct (Rlt_dec 0 0) as [Hlt|_]; [lra | reflexivity].
Qed.

Lemma closed_path_no_deviation_witness :
  averageDeviation
    (calculate_trajectory_metrics
       [Build_Point 0 0; Build_Point 1 1; Build_Point 0 0]) = 0.
Proof.
  apply (closed_path_no_deviation (Build_Point 0 0)
           [Build_Point 1 1; Build_Point 0 0]).
  reflexivity.
Defined.

(* ===================================================================== *)
(** ** Ranges and monotonicity of the scores *)
(* ===================================================================== *)

(** X11. UEI lies in [[0, 100]] for every record, whatever the values of
    its fields: the final clamp of [calculate_uei]. *)
Theorem uei_always_in_range (data : Data) : 0 <= calculate_uei data <= 100.
Proof. exact (uei_in_range data). Qed.

(** X12. SCI lies in [[0, 100]] when the positive deviation and area, the
    average velocity and the hover counts of the record are not
    negative. *)
Theorem sci_in_range_for_nonneg_inputs (data : Data) :
  nonneg_inputs data -> 0 <= calculate_sci data <= 100.
Proof. exact (sci_in_range data). Qed.

Lemma sci_in_range_for_nonneg_inputs_witness :
  0 <= calculate_sci bare_record <= 100.
Proof.
  apply (sci_in_range_for_nonneg_inputs bare_record).
  unfold nonneg_inputs. simpl. repeat split; try lra.
  apply map_Forall_empty.
Defined.

(** X13. The hover ratio lies in [[0, 1]] when no hover count is
    negative, whichever response is selected. *)
Theorem hover_ratio_in_unit_interval (data : Data) :
  map_Forall (fun _ v => 0 <= v) (default ∅ (get_hoverCounts data)) ->
  0 <= hover_ratio data <= 1.
Proof. exact (hover_ratio_unit data). Qed.

Lemma hover_ratio_in_unit_interval_witness :
  0 <= hover_ratio (hover_record 3) <= 1.
Proof.
  apply (hover_ratio_in_unit_interval (hover_record 3)).
  simpl. unfold counts_AB. apply map_Forall_insert_2; [lra|].
  apply map_Forall_singleton. lra.
Defined.

Lemma Rmin_le_1 (a : R) : Rmin a 1 <= 1.
Proof. apply Rmin_r. Qed.

Lemma uei_raw_at_most_1 (data : Data) :
  0 <= default 0 (get_leaf LMaxDeviationPositive data) ->
  0 <= default 500 (get_leaf LAverageVelocityPxPerSec data) ->
  uei_raw data <= 1.
Proof.
  intros Hdev Hvel. unfold get_leaf in Hdev, Hvel. cbv zeta in Hdev, Hvel.
  unfold uei_raw. cbv zeta.
  pose proof (smoothness_unit (default [] (trajectory data))) as Hsm.
  set (sm := trajectorySmoothness _) in *.
  set (len := trajectoryLength _).
  set (dv := default no_deviation _) in *.
  set (ve := default no_velocity _) in *.
  set (co := default no_complexity _).
  pose proof (Rabs_pos (default 0 (maxDeviationNegative dv))) as Habs.
  pose proof (Rmin_unit ((default 0 (maxDeviationPositive dv)
                          + Rabs (default 0 (maxDeviationNegative dv))) / 100))
    as Hd.
  pose proof (Rmin_unit (default 500 (averageVelocityPxPerSec ve) / 1000))
    as Hv.
  pose proof (Rmin_le_1 (default 1000 (maximalVelocityPxPerSec ve) / 2000)).
  pose proof (Rmin_le_1 (default 1.0 (angleEntropy co) / 3.0)).
  pose proof (Rmin_le_1 ((default 0 (aucPositive dv)
                          + Rabs (default 0 (aucNegative dv))) / 500)).
  pose proof (Rmin_le_1 (len / 5.0)).
  apply Rmax_lub; lra.
Qed.

(** X15. A record whose initiation time is below 100 ms scores at most 70
    in UEI, provided its positive deviation and its average velocity are
    not negative. *)
Theorem instant_response_capped (data : Data) :
  initiation_time data < 100 ->
  0 <= default 0 (get_leaf LMaxDeviationPositive data) ->
  0 <= default 500 (get_leaf LAverageVelocityPxPerSec data) ->
  calculate_uei data <= 70.
Proof.
  intros Ht Hdev Hvel. pose proof (uei_raw_at_most_1 data Hdev Hvel) as Hraw.
  unfold calculate_uei. destruct (speed_penalty_cases (initiation_time data))
    as [Hp _]. rewrite (Hp Ht).
  revert Hraw. generalize (uei_raw data). intros r Hr. split_real.
Qed.

Lemma instant_response_capped_witness :
  calculate_uei (set_leaf LInitiationTimeMs 50 bare_record) <= 70.
Proof.
  apply (instant_response_capped (set_leaf LInitiationTimeMs 50 bare_record)).
  - rewrite initiation_time_set. lra.
  - simpl. lra.
  - simpl. lra.
Defined.

Lemma Rmin_monotone (a b : R) : a <= b -> Rmin a 1 <= Rmin b 1.
Proof. intros H. split_real. Qed.

Lemma sci_velocity_difference (v1 v2 : R) (data : Data) :
  calculate_sci (set_leaf LAverageVelocityPxPerSec v1 data)
  - calculate_sci (set_leaf LAverageVelocityPxPerSec v2 data)
  = 10 * (Rmin (v2 / 2000) 1 - Rmin (v1 / 2000) 1).
Proof.
  destruct_data data; unfold calculate_sci, hover_ratio; simpl; lra.
Qed.

Lemma sci_deviation_difference (v1 v2 : R) (data : Data) :
  let neg := Rabs (default 0 (get_leaf LMaxDeviationNegative data)) in
  calculate_sci (set_leaf LMaxDeviationPositive v2 data)
  - calculate_sci (set_leaf LMaxDeviationPositive v1 data)
  = 20 * (Rmin ((v2 + neg) / 100) 1 - Rmin ((v1 + neg) / 100) 1).
Proof.
  destruct_data data; unfold calculate_sci, hover_ratio; simpl; lra.
Qed.

(** X16. With everything else fixed, SCI never increases when the average
    velocity increases, and never decreases when the positive maximum
    deviation increases. *)
Theorem sci_monotone (v1 v2 : R) (data : Data) :
  v1 <= v2 ->
  calculate_sci (set_leaf LAverageVelocityPxPerSec v2 data)
  <= calculate_sci (set_leaf LAverageVelocityPxPerSec v1 data)
  /\ calculate_sci (set_leaf LMaxDeviationPositive v1 data)
     <= calculate_sci (set_leaf LMaxDeviationPositive v2 data).
Proof.
  intros Hv. split.
  - pose proof (sci_velocity_difference v1 v2 data) as Hd.
    pose proof (Rmin_monotone (v1 / 2000) (v2 / 2000)) as Hm. lra.
  - pose proof (sci_deviation_difference v1 v2 data) as Hd. cbv zeta in Hd.
    pose proof (Rmin_monotone
                  ((v1 + Rabs (default 0 (get_leaf LMaxDeviationNegative data)))
                   / 100)
                  ((v2 + Rabs (default 0 (get_leaf LMaxDeviationNegative data)))
                   / 100)) as Hm.
    lra.
Qed.

Lemma sci_monotone_witness :
  calculate_sci (set_leaf LAverageVelocityPxPerSec 900 bare_record)
  <= calculate_sci (set_leaf LAverageVelocityPxPerSec 300 bare_record).
Proof.
  apply (sci_monotone 300 900 bare_record). lra.
Defined.

(** X17. SCI and UEI do not depend on who answered which question when:
    replacing [userId], [questionId] and [timestamp] changes neither. *)
Theorem scores_ignore_identity (user question time : option string)
  (data : Data) :
  calculate_sci (with_identity user question time data) = calculate_sci data
  /\ calculate_uei (with_identity user question time data)
     = calculate_uei data.
Proof.
  destruct data as [[[u q t s]|] tr m]; split; reflexivity.
Qed.

Lemma round_half_even_range (v : R) (n : Z) :
  0 <= v <= IZR n -> (0 <= round_half_even v <= n)%Z.
Proof.
  intros [H0 Hn]. unfold round_half_even.
  destruct (base_Int_part v) as [Hf1 Hf2].
  set (f := Int_part v) in *.
  assert (Hf0 : (0 <= f)%Z).
  { assert (IZR (-1) < IZR f) by (simpl; lra).
    apply lt_IZR in H. lia. }
  assert (Hfn : (f <= n)%Z) by (apply le_IZR; lra).
  assert (Hup : 1 / 2 <= v - IZR f -> (f + 1 <= n)%Z).
  { intros Hr. assert (IZR f < IZR n) by lra. apply lt_IZR in H. lia. }
  destruct (Rlt_dec (v - IZR f) (1 / 2)) as [Hlt|Hge]; [lia|].
  assert (Hr : 1 / 2 <= v - IZR f) by lra. specialize (Hup Hr).
  destruct (Rlt_dec (1 / 2) (v - IZR f)); [lia|].
  destruct (Z.even f); lia.
Qed.

Lemma round2_range (v : R) : 0 <= v <= 100 -> 0 <= round2 v <= 100.
Proof.
  intros Hv. unfold round2.
  destruct (round_half_even_range (v * 100) 10000) as [H0 H1].
  { simpl. lra. }
  apply IZR_le in H0, H1. simpl in H0, H1. lra.
Qed.

(** X14. For a record with non-negative inputs and a history whose entries
    are in range, the three rounded scores that [calculate_all] returns
    lie in [[0, 100]] and the history it leaves is in range again. *)
Theorem calculate_all_keeps_ranges (data : Data) (update_history : bool)
  (history : History) :
  nonneg_inputs data ->
  Forall entry_in_range history ->
  let result := calculate_all data update_history history in
  0 <= SCI (fst result) <= 100
  /\ 0 <= UEI (fst result) <= 100
  /\ 0 <= SEI (fst result) <= 100
  /\ Forall entry_in_range (snd result).
Proof.
  intros Hnn Hall result.
  destruct (scores_in_range data update_history history Hnn Hall)
    as (Hsci & Huei & Hsei & Hall').
  split; [|split; [|split]].
  - apply round2_range, Hsci.
  - apply round2_range, Huei.
  - unfold result. rewrite calculate_all_SEI. apply round2_range, Hsei.
  - exact Hall'.
Qed.

Lemma calculate_all_keeps_ranges_witness :
  0 <= SCI (fst (calculate_all bare_record true [entry_of_A; entry_of_B]))
    <= 100.
Proof.
  apply (calculate_all_keeps_ranges bare_record true
           [entry_of_A; entry_of_B]).
  - unfold nonneg_inputs. simpl. repeat split; try lra.
    apply map_Forall_empty.
  - constructor; [|constructor; [|constructor]];
      unfold entry_in_range; simpl; lra.
Defined.

(* ===================================================================== *)
(** ** The aggregation behind SEI *)
(* ===================================================================== *)

(** X28. SEI lies in [[0, 100]] for every [user_id] when the SCI and UEI
    of every history entry lie in [[0, 100]]. *)
Theorem sei_in_range_for_scored_history (user_id : option string)
  (history : History) :
  Forall entry_in_range history ->
  0 <= calculate_sei user_id history <= 100.
Proof. exact (calculate_sei_in_range user_id history). Qed.

Lemma sei_in_range_for_scored_history_witness :
  0 <= calculate_sei (Some "user_B"%string) [entry_of_A; entry_of_B] <= 100.
Proof.
  apply (sei_in_range_for_scored_history (Some "user_B"%string)
           [entry_of_A; entry_of_B]).
  constructor; [|constructor; [|constructor]];
    unfold entry_in_range; simpl; lra.
Defined.

(* ===================================================================== *)
(** ** History views, batches and statistics *)
(* ===================================================================== *)

(** X20. After [calculate_all] with [update_history=True], the history of
    a non-empty user id is its history before the call, followed by the
    new entry exactly when the record carries that user id. *)
Theorem per_user_view_after_scoring (u : string) (data : Data)
  (history : History) :
  u <> EmptyString ->
  get_history (Some u) (snd (calculate_all data true history))
  = get_history (Some u) history
    ++ (if String.eqb (user_of data) u then [entry_for data] else []).
Proof.
  intros Hu. rewrite calculate_all_history. fold (entry_for data).
  unfold get_history. rewrite (truthy_nonempty u Hu). simpl.
  rewrite entries_of_app. reflexivity.
Qed.

Lemma per_user_view_after_scoring_witness :
  get_history (Some "user_A"%string)
    (snd (calculate_all bare_record true [entry_of_A; entry_of_B]))
  = [entry_of_A].
Proof.
  rewrite (per_user_view_after_scoring "user_A" bare_record
             [entry_of_A; entry_of_B]).
  - reflexivity.
  - discriminate.
Defined.

Lemma entries_of_sublist (u : string) (history : History) :
  sublist (entries_of u history) history.
Proof.
  unfold entries_of. induction history as [|e h IH]; simpl.
  - constructor.
  - destruct (String.eqb _ _); [apply sublist_skip | apply sublist_cons];
      exact IH.
Qed.

(** X21. For a non-empty user id [get_history] returns the entries with
    that [userId], all of them and only them, in insertion order;
    filtering twice is filtering once. *)
Theorem get_history_selects_user (u : string) (history : History) :
  u <> EmptyString ->
  sublist (get_history (Some u) history) history
  /\ (forall e : HistoryEntry,
        In e (get_history (Some u) history)
        <-> In e history /\ h_userId e = u)
  /\ get_history (Some u) (get_history (Some u) history)
     = get_history (Some u) history.
Proof.
  intros Hu. unfold get_history. rewrite (truthy_nonempty u Hu). simpl.
  split; [apply entries_of_sublist | split].
  - intros e. unfold entries_of. rewrite List.filter_In.
    split; intros [Hin He]; (split; [exact Hin|]).
    + apply String.eqb_eq, He.
    + apply String.eqb_eq, He.
  - apply entries_of_all. apply List.Forall_forall. intros e He.
    unfold entries_of in He. apply List.filter_In in He as [_ He].
    apply String.eqb_eq, He.
Qed.

Lemma get_history_selects_user_witness :
  sublist (get_history (Some "user_B"%string) [entry_of_A; entry_of_B])
          [entry_of_A; entry_of_B].
Proof.
  apply (get_history_selects_user "user_B" [entry_of_A; entry_of_B]).
  discriminate.
Defined.

Lemma batch_loop_cons (q : Data) (qs : list Data) (history : History) :
  batch_loop (q :: qs) history
  = ({| indices_of := fst (calculate_all q true history);
        metadata_of := default no_metadata (metadata q) |}
       :: fst (batch_loop qs (snd (calculate_all q true history))),
     snd (batch_loop qs (snd (calculate_all q true history)))).
Proof.
  simpl. destruct (batch_loop qs _) as [results h']. reflexivity.
Qed.

Lemma batch_loop_app (qs1 qs2 : list Data) (history : History) :
  batch_loop (qs1 ++ qs2) history
  = (fst (batch_loop qs1 history)
       ++ fst (batch_loop qs2 (snd (batch_loop qs1 history))),
     snd (batch_loop qs2 (snd (batch_loop qs1 history)))).
Proof.
  revert history. induction qs1 as [|q qs1 IH]; intros history.
  - simpl. destruct (batch_loop qs2 history). reflexivity.
  - rewrite <- app_comm_cons, !batch_loop_cons, IH. reflexivity.
Qed.

(** X23. A batch is the same as its two halves sent one after the other:
    the results are concatenated and the final history is the same. *)
Theorem batch_splits (qs1 qs2 : list Data) (history : History) :
  let first := batch_loop qs1 history in
  let second := batch_loop qs2 (snd first) in
  calculate_batch (Some (qs1 ++ qs2)) history
  = (BatchSuccess 200 (fst first ++ fst second), snd second).
Proof.
  intros first second. unfold calculate_batch.
  rewrite batch_loop_app. reflexivity.
Qed.

Lemma size_users_le (l : list string) :
  (size (list_to_set l : gset string) <= length l)%nat.
Proof.
  induction l as [|u l IH].
  - rewrite list_to_set_nil, size_empty. simpl. lia.
  - rewrite list_to_set_cons, size_union_alt, size_singleton. cbn [length].
    assert (Hle : (size (list_to_set l ∖ {[u]} : gset string)
                   <= size (list_to_set l : gset string))%nat).
    { apply subseteq_size, subseteq_difference_l. reflexivity. }
    lia.
Qed.

(** X25. [get_stats] reports the length of the history, a number of unique
    users that never exceeds it and is 0 exactly for the empty history,
    and zeros after [reset]. *)
Theorem stats_bounds (history : History) :
  let s := get_stats history in
  total_calculations s = length history
  /\ (unique_users s <= total_calculations s)%nat
  /\ (unique_users s = 0%nat <-> history = [])
  /\ get_stats (snd (reset history)) = {| total_calculations := 0;
                                          unique_users := 0 |}.
Proof.
  unfold get_stats, get_history.
  cbn [truthy total_calculations unique_users].
  split; [reflexivity | split; [|split]].
  - rewrite <- (length_map h_userId history). apply size_users_le.
  - split.
    + intros Hz. destruct history as [|e h]; [reflexivity|]. exfalso.
      assert (Hin : h_userId e
                    ∈ (list_to_set (map h_userId (e :: h)) : gset string))
        by (apply elem_of_list_to_set; left).
      apply (proj1 (size_empty_iff
                      (list_to_set (map h_userId (e :: h)) : gset string)))
        in Hz.
      rewrite Hz in Hin. exact (not_elem_of_empty _ Hin).
    + intros ->. apply (size_empty (C:=gset string)).
  - reflexivity.
Qed.

(** X26. Scoring a record with [update_history=True] raises
    [total_calculations] by one, and [unique_users] by one exactly when
    the record's user id (the empty string when absent) was not yet in
    the history. *)
Theorem stats_after_scoring (data : Data) (history : History) :
  let s := get_stats history in
  let s' := get_stats (snd (calculate_all data true history)) in
  total_calculations s' = S (total_calculations s)
  /\ unique_users s'
     = if decide (user_of data ∈ map h_userId history)
       then unique_users s else S (unique_users s).
Proof.
  rewrite calculate_all_history. fold (entry_for data).
  unfold get_stats, get_history. simpl. split.
  - rewrite length_app. simpl. lia.
  - rewrite map_app. simpl map.
    change (h_userId (entry_for data)) with (user_of data).
    rewrite list_to_set_app_L, list_to_set_singleton_L.
    destruct (decide (user_of data ∈ map h_userId history)) as [Hin|Hnin].
    + assert (Hin' : user_of data
                     ∈ (list_to_set (map h_userId history) : gset string))
        by (apply elem_of_list_to_set; exact Hin).
      f_equal. rewrite union_comm_L. apply subseteq_union_1_L.
      apply singleton_subseteq_l. exact Hin'.
    + assert (Hnin' : user_of data
                      ∉ (list_to_set (map h_userId history) : gset string))
        by (intros H; apply Hnin; apply elem_of_list_to_set in H; exact H).
      rewrite size_union, size_singleton; [lia|].
      apply disjoint_singleton_r. exact Hnin'.
Qed.

Lemma round_half_even_IZR (z : Z) : round_half_even (IZR z) = z.
Proof.
  unfold round_half_even.
  assert (Hf : Int_part (IZR z) = z).
  { symmetry. apply Int_part_spec. lra. }
  rewrite Hf. replace (IZR z - IZR z) with 0 by ring.
  destruct (Rlt_dec 0 (1 / 2)); [reflexivity | lra].
Qed.

Lemma round2_50 : round2 50.0 = 50.
Proof.
  unfold round2. replace (50.0 * 100) with (IZR 5000) by (simpl; lra).
  rewrite round_half_even_IZR. simpl. lra.
Qed.

(** X27. With [update_history=False] the history is untouched and the SEI
    is the one of the history as it was, before the record; on an empty
    history it is 50 whatever the record. *)
Theorem read_only_scoring (data : Data) (history : History) :
  let result := calculate_all data false history in
  snd result = history
  /\ SEI (fst result)
     = round2 (calculate_sei (userId (default no_metadata (metadata data)))
                 history)
  /\ SEI (fst (calculate_all data false [])) = 50.
Proof.
  intros result. split; [reflexivity | split; [reflexivity|]].
  rewrite calculate_all_SEI, calculate_all_history.
  rewrite calculate_sei_get_history.
  assert (Hempty : get_history
                     (userId (default no_metadata (metadata data))) [] = []).
  { unfold get_history. destruct (truthy _); reflexivity. }
  rewrite Hempty. apply round2_50.
Qed.

